(** * Number pipes of @angular/common: [formatNumber] and its three entry points

    Shallow embedding of [modules/@angular/common/src/pipes/number_pipe.ts]:
    the digit-info regular expression, the dispatcher [formatNumber] and the
    [DecimalPipe], [PercentPipe] and [CurrencyPipe] transforms, followed by the
    properties of the digit-info grammar, of the defaults and of the error
    paths. *)

From Stdlib Require Import Bool Arith ZArith List Ascii String Lia.
From Stdlib Require Import SpecFloat.
Import ListNotations.

Local Open Scope string_scope.
Local Open Scope list_scope.

(** ** JavaScript values *)

Module Js.

(** A JavaScript number is an IEEE 754 binary64 value. *)
Definition prec : Z := 53.
Definition emax : Z := 1024.
Definition number : Type := spec_float.
Definition NaN : number := S754_nan.

(** The number nearest to an integer (round to nearest, ties to even). *)
Definition number_of_Z (z : Z) : number := binary_normalize prec emax z 0 false.

(** The values a template expression can hand to a pipe ([value: any]). *)
Inductive Value : Type :=
| Undefined
| Null
| Boolean (b : bool)
| Number (n : number)
| Str (s : string)
| Object (ref : nat).

(** Code units of a string, and the characters the pipes look at. *)
Definition chars (s : string) : list ascii := list_ascii_of_string s.
Definition str (l : list ascii) : string := string_of_list_ascii l.

Definition isDigit (c : ascii) : bool :=
  (48 <=? nat_of_ascii c)%nat && (nat_of_ascii c <=? 57)%nat.

Definition digit_value (c : ascii) : Z := Z.of_nat (nat_of_ascii c) - 48.

(** The longest prefix of [l] whose characters satisfy [p], and what follows. *)
Fixpoint span (p : ascii -> bool) (l : list ascii) : list ascii * list ascii :=
  match l with
  | [] => ([], [])
  | c :: t => if p c then let (a, r) := span p t in (c :: a, r) else ([], l)
  end.

(** Value of a run of digits in the given radix, most significant first. *)
Definition digits_value (radix : Z) (ds : list ascii) : Z :=
  fold_left (fun acc c => radix * acc + digit_value c)%Z ds 0%Z.

(** A decimal literal [(-1)^neg * mantissa * 10^exponent]. *)
Record DecimalLiteral : Type := mkDecimal {
  dl_neg : bool;
  dl_mantissa : Z;
  dl_exponent : Z
}.

Definition read_sign (l : list ascii) : bool * list ascii :=
  match l with
  | "-"%char :: t => (true, t)
  | "+"%char :: t => (false, t)
  | _ => (false, l)
  end.

Definition read_exponent (l : list ascii) : option Z :=
  match l with
  | [] => Some 0%Z
  | c :: t =>
      if (Ascii.eqb c "e" || Ascii.eqb c "E")%bool then
        let (neg, t') := read_sign t in
        match span isDigit t' with
        | ((_ :: _) as ds, []) =>
            Some (if neg then - digits_value 10 ds else digits_value 10 ds)%Z
        | _ => None
        end
      else None
  end.

(** Modelled from the spec: the lexical shape of a numeric string is decided
    by [NumberWrapper.isNumeric] of [facade/lang], which is not part of the
    sources at hand. The spec describes it as a full-string numeric literal,
    optionally signed, optionally with a fractional part and/or an
    exponent. *)
Definition read_decimal (l : list ascii) : option DecimalLiteral :=
  let (neg, l1) := read_sign l in
  let (ip, l2) := span isDigit l1 in
  let (fp, l3) := match l2 with
                  | "."%char :: t => span isDigit t
                  | _ => ([], l2)
                  end in
  match ip ++ fp with
  | [] => None
  | ds =>
      match read_exponent l3 with
      | Some e => Some (mkDecimal neg (digits_value 10 ds)
                                  (e - Z.of_nat (List.length fp)))
      | None => None
      end
  end.

(** The number denoted by a decimal literal: the binary64 value nearest to
    its mathematical value. *)
Definition number_of_decimal (d : DecimalLiteral) : number :=
  match dl_mantissa d with
  | Zpos m =>
      if (0 <=? dl_exponent d)%Z then
        binary_normalize prec emax
          ((if dl_neg d then Zneg m else Zpos m) * 10 ^ dl_exponent d) 0 (dl_neg d)
      else
        SFdiv prec emax (S754_finite (dl_neg d) m 0)
          (S754_finite false (Z.to_pos (10 ^ (- dl_exponent d))) 0)
  | _ => S754_zero (dl_neg d)
  end.

(** Unary plus on a string, [+value]. [formatNumber] applies it only to
    strings that passed [NumberWrapper.isNumeric]; on any other string the
    conversion is not a number. *)
Definition ToNumber (s : string) : number :=
  match read_decimal (chars s) with
  | Some d => number_of_decimal d
  | None => NaN
  end.

End Js.

Import Js.

(** ** Pipe classes, exceptions and the Intl facade *)

(** The three pipe classes; [formatNumber] receives one as [pipe: Type<any>]
    and hands it to [InvalidPipeArgumentError]. *)
Inductive PipeClass : Type := DecimalPipe | PercentPipe | CurrencyPipe.

(** Modelled from the spec: [InvalidPipeArgumentError] is defined in
    [invalid_pipe_argument_error], outside the sources at hand. It carries
    the originating entry point and the raw value. [Error] is the built-in
    error with its message. *)
Inductive Exception : Type :=
| Error (message : string)
| InvalidPipeArgumentError (type : PipeClass) (value : Value).

Inductive Completion (A : Type) : Type :=
| Normal (a : A)
| Abrupt (e : Exception).
Arguments Normal {A} a.
Arguments Abrupt {A} e.

(** Modelled from the spec: [NumberFormatStyle] and [NumberFormatter] are
    defined in [facade/intl], outside the sources at hand. The style is one of
    decimal, percent and currency; the formatter is consumed as an opaque
    capability [format(value, locale, style, options) -> string]. *)
Module Intl.

Inductive NumberFormatStyle : Type := Decimal | Percent | Currency.

Definition NumberFormatStyle_eqb (a b : NumberFormatStyle) : bool :=
  match a, b with
  | Decimal, Decimal | Percent, Percent | Currency, Currency => true
  | _, _ => false
  end.

(** The options literal of [formatNumber]; [None] is a field left
    [undefined] (the bounds) or [null] (the currency). *)
Record FormatOptions : Type := mkOptions {
  minimumIntegerDigits : option number;
  minimumFractionDigits : option number;
  maximumFractionDigits : option number;
  currency : option string;
  currencyAsSymbol : bool
}.

(** One call [NumberFormatter.format(num, locale, style, opts)]. *)
Record FormatCall : Type := mkCall {
  call_num : number;
  call_locale : string;
  call_style : NumberFormatStyle;
  call_opts : FormatOptions
}.

End Intl.
Import Intl.

(** ** Computations

    A pipe either returns, throws, or asks the locale formatter for a string
    and goes on with the answer. [NumberFormatter.format] is the only
    operation of the pipes that leaves the module. *)

Inductive Prog (A : Type) : Type :=
| Ret (a : A)
| Throw (e : Exception)
| Format (call : FormatCall) (k : string -> Prog A).
Arguments Ret {A} a.
Arguments Throw {A} e.
Arguments Format {A} call k.

Fixpoint bind {A B : Type} (p : Prog A) (f : A -> Prog B) : Prog B :=
  match p with
  | Ret a => f a
  | Throw e => Throw e
  | Format call k => Format call (fun s => bind (k s) f)
  end.

Declare Scope prog_scope.
Delimit Scope prog_scope with prog.
Notation "x <- p ;; q" := (bind p (fun x => q))
  (at level 61, p at next level, right associativity) : prog_scope.
Local Open Scope prog_scope.

Module NumberFormatter.
Definition format (num : number) (locale : string) (style : NumberFormatStyle)
    (opts : FormatOptions) : Prog string :=
  Format (mkCall num locale style opts) Ret.
End NumberFormatter.

(** Running a computation against a locale formatter. The formatter may
    keep state of its own ([Env]) and may throw; the run returns the
    completion, the formatter's final state and the calls it received, in
    order. *)
Section Run.
Context {Env : Type}.

Definition Collaborator : Type := FormatCall -> Env -> Completion string * Env.

Fixpoint run {A : Type} (h : Collaborator) (p : Prog A) (env : Env)
  : Completion A * Env * list FormatCall :=
  match p with
  | Ret a => (Normal a, env, [])
  | Throw e => (Abrupt e, env, [])
  | Format call k =>
      match h call env with
      | (Normal s, env') =>
          let '(r, env'', calls) := run h (k s) env' in (r, env'', call :: calls)
      | (Abrupt e, env') => (Abrupt e, env', [call])
      end
  end.

Definition result {A : Type} (o : Completion A * Env * list FormatCall) : Completion A :=
  fst (fst o).
Definition calls {A : Type} (o : Completion A * Env * list FormatCall) : list FormatCall :=
  snd o.
End Run.
Arguments Collaborator Env : clear implicits.

(** ** The language facade ([facade/lang]) *)

Module Lang.

(** Modelled from the spec: [isBlank] is defined in [facade/lang], outside
    the sources at hand. A value is blank when it is absent, that is [null]
    or [undefined]. *)
Definition isBlank (obj : Value) : bool :=
  match obj with
  | Undefined | Null => true
  | _ => false
  end.

(** Modelled from the spec: [isNumber] is defined in [facade/lang], outside
    the sources at hand. It tells whether the value is already numeric, that
    is of type number. *)
Definition isNumber (obj : Value) : bool :=
  match obj with Number _ => true | _ => false end.

(** Value of a character as a digit: 0-9, then a-z or A-Z for 10-35;
    36 for every other character. *)
Definition digit_of (c : ascii) : Z :=
  let n := nat_of_ascii c in
  if ((48 <=? n) && (n <=? 57))%nat then Z.of_nat n - 48
  else if ((97 <=? n) && (n <=? 122))%nat then Z.of_nat n - 87
  else if ((65 <=? n) && (n <=? 90))%nat then Z.of_nat n - 55
  else 36.

Definition isRadixDigit (radix : Z) (c : ascii) : bool := (digit_of c <? radix)%Z.

Definition radix_value (radix : Z) (ds : list ascii) : Z :=
  fold_left (fun acc c => radix * acc + digit_of c)%Z ds 0%Z.

Module NumberWrapper.

(** Modelled from the spec: [NumberWrapper.isNumeric] is defined in
    [facade/lang], outside the sources at hand. A string is numeric when
    the whole of it is a numeric literal, optionally signed, optionally
    with a fractional part and/or an exponent. *)
Definition isNumeric (s : string) : bool :=
  match read_decimal (chars s) with
  | Some _ => true
  | None => false
  end.

(** The radix a digit-count field is read in, and the characters read. *)
Definition autoRadix (l : list ascii) : Z * list ascii :=
  match l with
  | c0 :: t =>
      if Ascii.eqb c0 "0" then
        match t with
        | c1 :: t' =>
            if (Ascii.eqb c1 "x" || Ascii.eqb c1 "X")%bool then (16%Z, t')
            else (8%Z, l)
        | [] => (8%Z, l)
        end
      else (10%Z, l)
  | [] => (10%Z, l)
  end.

(** Modelled from the spec: [NumberWrapper.parseIntAutoRadix] is defined in
    [facade/lang], outside the sources at hand. Integer fields are parsed
    with auto-detected radix: a leading 0x or 0 prefix is honored if
    present, otherwise base 10; a field that does not parse as an integer
    is an error, which quotes the text the function was given. *)
Definition parseIntAutoRadix (text : string) : Prog number :=
  let (radix, body) := autoRadix (chars text) in
  match span (isRadixDigit radix) body with
  | ([], _) => Throw (Error (text ++ " is not a valid digit info for number pipes")%string)
  | (ds, _) => Ret (number_of_Z (radix_value radix ds))
  end.

End NumberWrapper.

End Lang.
Import Lang.

(** ** Regular expressions

    The backtracking matcher of ECMAScript (ES5 15.10.2), in continuation
    passing style as the standard gives it, for the constructs the digit-info
    pattern is written with: characters, [\d], the assertions [^] and [$],
    sequencing, capturing parentheses and greedy quantifiers. *)

Module RegExp.

Inductive Pattern : Type :=
| Empty
| Char (ch : ascii)
| Digit
| Bol
| Eol
| Seq (r1 r2 : Pattern)
| Group (n : nat) (r : Pattern)
| Quant (r : Pattern) (min : nat) (max : option nat).

(** [r?] and [r+]. *)
Definition Opt (r : Pattern) : Pattern := Quant r 0 (Some 1).
Definition Plus (r : Pattern) : Pattern := Quant r 1 None.

(** A state of the matcher: the index reached, the input from there on, and
    the captures so far ([None] is [undefined]); index 0 of the captures is
    kept for the whole match. *)
Record State : Type := mkState {
  endIndex : nat;
  rest : list ascii;
  captures : list (option string)
}.

Definition MatchResult : Type := option State.
Definition Continuation : Type := State -> MatchResult.
Definition Matcher : Type := State -> Continuation -> MatchResult.

Fixpoint update {A : Type} (l : list A) (n : nat) (v : A) : list A :=
  match l, n with
  | [], _ => []
  | _ :: t, O => v :: t
  | a :: t, S n' => a :: update t n' v
  end.

(** The capturing parentheses inside a pattern. *)
Fixpoint parens (r : Pattern) : list nat :=
  match r with
  | Seq r1 r2 => parens r1 ++ parens r2
  | Group n r' => n :: parens r'
  | Quant r' _ _ => parens r'
  | _ => []
  end.

(** Step 4 of RepeatMatcher: the captures of the parentheses inside the
    quantified atom are reset before each round. *)
Definition clearCaptures (ks : list nat) (cap : list (option string))
  : list (option string) :=
  fold_left (fun cap k => update cap k None) ks cap.

Definition clear (ks : list nat) (x : State) : State :=
  mkState (endIndex x) (rest x) (clearCaptures ks (captures x)).

(** ES5 15.10.2.5, RepeatMatcher, greedy. [fuel] bounds the number of
    rounds: beyond the first [min] every round has to consume input (step
    2a, the empty check), so [min] rounds, one round for each character left
    and the closing call are all there can be; [matcher] provides them. *)
Fixpoint RepeatMatcher (fuel : nat) (m : Matcher) (min : nat) (max : option nat)
    (ks : list nat) (x : State) (c : Continuation) {struct fuel} : MatchResult :=
  match fuel with
  | O => None
  | S fuel' =>
      match max with
      | Some O => c x
      | _ =>
          let d : Continuation := fun y =>
            if ((min =? 0) && (endIndex y =? endIndex x))%nat then None
            else RepeatMatcher fuel' m (pred min) (option_map pred max) ks y c in
          let xr := clear ks x in
          if negb (min =? 0)%nat then m xr d
          else match m xr d with
               | Some z => Some z
               | None => c x
               end
      end
  end.

Fixpoint matcher (r : Pattern) : Matcher :=
  match r with
  | Empty => fun x c => c x
  | Char ch => fun x c =>
      match rest x with
      | a :: t => if Ascii.eqb a ch
                  then c (mkState (S (endIndex x)) t (captures x)) else None
      | [] => None
      end
  | Digit => fun x c =>
      match rest x with
      | a :: t => if isDigit a
                  then c (mkState (S (endIndex x)) t (captures x)) else None
      | [] => None
      end
  | Bol => fun x c => if (endIndex x =? 0)%nat then c x else None
  | Eol => fun x c => match rest x with [] => c x | _ :: _ => None end
  | Seq r1 r2 => fun x c => matcher r1 x (fun y => matcher r2 y c)
  | Group n r' => fun x c =>
      matcher r' x (fun y =>
        let s := str (firstn (endIndex y - endIndex x) (rest x)) in
        c (mkState (endIndex y) (rest y) (update (captures y) n (Some s))))
  | Quant r' min max => fun x c =>
      RepeatMatcher (S (S (min + List.length (rest x)))) (matcher r') min max
                    (parens r') x c
  end.

Record RegExp : Type := mkRegExp {
  source : Pattern;
  nCapturingParens : nat
}.

(** ES5 15.10.6.2 for a regular expression without the global flag: the
    match is tried at index 0, then 1, ... up to the length of the input. *)
Fixpoint exec_from (re : RegExp) (i : nat) (l : list ascii) : MatchResult :=
  match matcher (source re)
                (mkState i l (repeat None (S (nCapturingParens re)))) Some with
  | Some y => Some (mkState (endIndex y) (rest y)
                      (update (captures y) 0 (Some (str (firstn (endIndex y - i) l)))))
  | None =>
      match l with
      | [] => None
      | _ :: t => exec_from re (S i) t
      end
  end.

(** [re.exec(s)]: the array of the match and its captures, or [null]. *)
Definition exec (re : RegExp) (s : string) : option (list (option string)) :=
  option_map captures (exec_from re 0 (chars s)).

End RegExp.

(** [s.match(re)] for [re] without the global flag is [re.exec(s)]. *)
Definition String_match (s : string) (re : RegExp.RegExp) : option (list (option string)) :=
  RegExp.exec re s.

(** [parts[i]]: an index past the end reads [undefined]. *)
Definition item (parts : list (option string)) (i : nat) : option string :=
  nth i parts None.

(** ** number_pipe.ts *)

Module NumberPipe.
Import RegExp.

(** [/^(\d+)?\.((\d+)(\-(\d+))?)?$/], with its five capturing parentheses
    numbered from the left. *)
Definition _NUMBER_FORMAT_REGEXP : RegExp :=
  mkRegExp
    (Seq Bol
      (Seq (Opt (Group 1 (Plus Digit)))
        (Seq (Char ".")
          (Seq (Opt (Group 2
                      (Seq (Group 3 (Plus Digit))
                           (Opt (Group 4 (Seq (Char "-") (Group 5 (Plus Digit))))))))
               Eol))))
    5.

(** [formatNumber]. [digits] and [currency] are [None] when [null];
    [isPresent] of a string or of a group of the match is the match on the
    option, and [isString(value)] the match on [Str]. After the check
    [!isNumber(value)] the value is the number [num]. *)
Definition formatNumber (pipe : PipeClass) (locale : string) (value : Value)
    (style : NumberFormatStyle) (digits : option string)
    (currency : option string) (currencyAsSymbol : bool) : Prog (option string) :=
  if isBlank value then Ret None else
  (* Convert strings to numbers *)
  let value :=
    match value with
    | Str s => if NumberWrapper.isNumeric s then Number (ToNumber s) else value
    | _ => value
    end in
  match value with
  | Number num =>
      let '(minInt, minFraction, maxFraction) :=
        if negb (NumberFormatStyle_eqb style Currency)
        then (* rely on Intl default for currency *)
             (Some (number_of_Z 1), Some (number_of_Z 0), Some (number_of_Z 3))
        else (None, None, None) in
      bounds <-
        match digits with
        | Some digits =>
            match String_match digits _NUMBER_FORMAT_REGEXP with
            | None =>
                Throw (Error (digits ++ " is not a valid digit info for number pipes")%string)
            | Some parts =>
                minInt <-
                  match item parts 1 with (* min integer digits *)
                  | Some text =>
                      n <- NumberWrapper.parseIntAutoRadix text ;; Ret (Some n)
                  | None => Ret minInt
                  end ;;
                minFraction <-
                  match item parts 3 with (* min fraction digits *)
                  | Some text =>
                      n <- NumberWrapper.parseIntAutoRadix text ;; Ret (Some n)
                  | None => Ret minFraction
                  end ;;
                maxFraction <-
                  match item parts 5 with (* max fraction digits *)
                  | Some text =>
                      n <- NumberWrapper.parseIntAutoRadix text ;; Ret (Some n)
                  | None => Ret maxFraction
                  end ;;
                Ret (minInt, minFraction, maxFraction)
            end
        | None => Ret (minInt, minFraction, maxFraction)
        end ;;
      let '(minInt, minFraction, maxFraction) := bounds in
      s <- NumberFormatter.format num locale style
             (mkOptions minInt minFraction maxFraction currency currencyAsSymbol) ;;
      Ret (Some s)
  | _ => Throw (InvalidPipeArgumentError pipe value)
  end.

(** [transform] of the three pipes. The first argument is the pipe's
    [_locale]; an optional parameter left out by the caller is [None]. *)
Definition DecimalPipe_transform (_locale : string) (value : Value)
    (digits : option string) : Prog (option string) :=
  formatNumber DecimalPipe _locale value Decimal digits None false.

Definition PercentPipe_transform (_locale : string) (value : Value)
    (digits : option string) : Prog (option string) :=
  formatNumber PercentPipe _locale value Percent digits None false.

Definition CurrencyPipe_transform (_locale : string) (value : Value)
    (currencyCode : option string) (symbolDisplay : option bool)
    (digits : option string) : Prog (option string) :=
  let currencyCode := match currencyCode with Some c => c | None => "USD" end in
  let symbolDisplay := match symbolDisplay with Some b => b | None => false end in
  formatNumber CurrencyPipe _locale value Currency digits (Some currencyCode)
               symbolDisplay.

End NumberPipe.
Import RegExp NumberPipe.

(** ** The digit-info grammar

    What the pattern accepts, stated on the text:
    [{minIntegerDigits}.{minFractionDigits}-{maxFractionDigits}], where the
    dot is always written, every field is a non-empty run of decimal digits
    when present, and the maximum is written only after a minimum. *)

Definition isDigits (s : string) : bool :=
  match chars s with
  | [] => false
  | l => forallb isDigit l
  end.

Definition optDigits (o : option string) : bool :=
  match o with
  | Some t => isDigits t
  | None => true
  end.

Definition text (o : option string) : string :=
  match o with
  | Some t => t
  | None => ""
  end.

Inductive DigitInfo : string -> option string -> option string -> option string -> Prop :=
| DigitInfo_integer : forall i,
    optDigits i = true ->
    DigitInfo (text i ++ ".")%string i None None
| DigitInfo_min : forall i f,
    optDigits i = true -> isDigits f = true ->
    DigitInfo (text i ++ "." ++ f)%string i (Some f) None
| DigitInfo_min_max : forall i f m,
    optDigits i = true -> isDigits f = true -> isDigits m = true ->
    DigitInfo (text i ++ "." ++ f ++ "-" ++ m)%string i (Some f) (Some m).

(** The grammar in the words of the specification:
    [[<minInt>].[<minFrac>][-<maxFrac>]], where each field is an optional
    run of decimal digits, the dot is always written and the dash is written
    exactly when the maximum is. Nothing in these words ties the maximum to
    a minimum. *)
Definition SpecDigitInfo (s : string) (i f m : option string) : Prop :=
  optDigits i = true /\ optDigits f = true /\ optDigits m = true /\
  s = (text i ++ "." ++ text f
         ++ match m with Some t => "-" ++ t | None => "" end)%string.

Definition some_digits (l : list ascii) : option string :=
  match l with
  | [] => None
  | _ => Some (str l)
  end.

(** The grammar of [DigitInfo] as a function: the three fields of a digit
    info, read from left to right. *)
Definition fields (s : string) : option (option string * option string * option string) :=
  let (a, r1) := span isDigit (chars s) in
  match r1 with
  | ch :: r2 =>
      if Ascii.eqb ch "." then
        let (b, r3) := span isDigit r2 in
        match b, r3 with
        | [], [] => Some (some_digits a, None, None)
        | _ :: _, [] => Some (some_digits a, Some (str b), None)
        | _ :: _, ch' :: r4 =>
            if Ascii.eqb ch' "-" then
              match span isDigit r4 with
              | ((_ :: _) as m, []) =>
                  Some (some_digits a, Some (str b), Some (str m))
              | _ => None
              end
            else None
        | [], _ :: _ => None
        end
      else None
  | [] => None
  end.

(** The array [match] returns for a digit info with the given fields: the
    whole text, then the five groups of the pattern. *)
Definition matchArray (s : string) (ifm : option string * option string * option string)
  : list (option string) :=
  let '(i, f, m) := ifm in
  [ Some s; i;
    match f, m with
    | Some f', Some m' => Some (f' ++ "-" ++ m')%string
    | Some f', None => Some f'
    | None, _ => None
    end;
    f;
    match m with Some m' => Some ("-" ++ m')%string | None => None end;
    m ].

(** The number a field of digits is read as. *)
Definition fieldNumber (t : string) : number :=
  let (radix, body) := NumberWrapper.autoRadix (chars t) in
  number_of_Z (radix_value radix (fst (span (isRadixDigit radix) body))).

(** The bounds [formatNumber] starts from. *)
Definition defaultBounds (style : NumberFormatStyle)
  : option number * option number * option number :=
  match style with
  | Currency => (None, None, None)
  | Decimal | Percent =>
      (Some (number_of_Z 1), Some (number_of_Z 0), Some (number_of_Z 3))
  end.

(** A field of the digit info replaces the default, a missing one keeps it. *)
Definition merge (default : option number) (field : option string) : option number :=
  match field with
  | Some t => Some (fieldNumber t)
  | None => default
  end.

Definition mergedOptions (style : NumberFormatStyle)
    (ifm : option string * option string * option string)
    (currency : option string) (currencyAsSymbol : bool) : FormatOptions :=
  let '(i, f, m) := ifm in
  let '(minInt, minFraction, maxFraction) := defaultBounds style in
  mkOptions (merge minInt i) (merge minFraction f) (merge maxFraction m)
            currency currencyAsSymbol.

(** The test and the value of the first assignment of [formatNumber]:
    [isString(value) && NumberWrapper.isNumeric(value) ? +value : value]. *)
Definition isNumericString (value : Value) : bool :=
  match value with
  | Str s => NumberWrapper.isNumeric s
  | _ => false
  end.

Definition coerced (value : Value) : Value :=
  match value with
  | Str s => if NumberWrapper.isNumeric s then Number (ToNumber s) else value
  | _ => value
  end.

(** The three bounds of an options record. *)
Definition bounds (opts : FormatOptions) : option number * option number * option number :=
  (minimumIntegerDigits opts, minimumFractionDigits opts, maximumFractionDigits opts).

(** A computation that hands one call to the locale formatter and returns
    its answer as it is. *)
Definition delegate (call : FormatCall) : Prog (option string) :=
  Format call (fun s => Ret (Some s)).

(** The error of a digit info outside the grammar; it quotes the text. *)
Definition InvalidDigitInfo (digits : string) : Exception :=
  Error (digits ++ " is not a valid digit info for number pipes")%string.

(** A locale formatter for the examples: it answers with the locale it was
    asked for and counts its calls. *)
Definition countingFormatter : Collaborator nat :=
  fun call n => (Normal (call_locale call), S n).

(** A locale formatter with a memory: its answer depends on how often it
    has been called. *)
Definition alternatingFormatter : Collaborator nat :=
  fun call n => (Normal (if Nat.even n then "even" else "odd"), S n).

(** ** The object of the pattern

    [_NUMBER_FORMAT_REGEXP] is bound once, at module level, to a RegExp
    object, which all calls of all three pipes share. Next to the [_locale]
    of a pipe, which is assigned in the constructor alone and is an argument
    here, the object is the only thing in the module that outlives a call,
    and it has a state of its own: [lastIndex] (ES5 15.10.7.5), which [exec]
    reads when the object has the [global] flag, and writes. *)

Record RegExpObject : Type := mkObject {
  regexp : RegExp;
  global : bool;
  lastIndex : nat
}.

Definition setLastIndex (R : RegExpObject) (i : nat) : RegExpObject :=
  mkObject (regexp R) (global R) i.

(** ES5 15.10.6.2, [R.exec(s)], with the object after the call: the match
    starts at [lastIndex] when the object is global and at 0 when it is not;
    a failure sets [lastIndex] to 0, a success sets it to the end of the
    match when the object is global. *)
Definition exec_object (R : RegExpObject) (s : string)
  : option (list (option string)) * RegExpObject :=
  let l := chars s in
  let i := if global R then lastIndex R else 0%nat in
  if (List.length l <? i)%nat then (None, setLastIndex R 0)
  else
    match exec_from (regexp R) i (skipn i l) with
    | None => (None, setLastIndex R 0)
    | Some y =>
        (Some (captures y), if global R then setLastIndex R (endIndex y) else R)
    end.

(** ES5 15.5.4.10, step 8: the matches of a global object, one after the
    other; an empty match moves [lastIndex] on by one. There are at most as
    many rounds as there are positions in the text, plus the failing one. *)
Fixpoint match_all (fuel : nat) (R : RegExpObject) (s : string)
    (previousLastIndex : nat) (A : list (option string))
  : list (option string) * RegExpObject :=
  match fuel with
  | O => (A, R)
  | S fuel' =>
      match exec_object R s with
      | (None, R') => (A, R')
      | (Some result, R') =>
          let thisIndex := lastIndex R' in
          if (thisIndex =? previousLastIndex)%nat
          then match_all fuel' (setLastIndex R' (thisIndex + 1)) s (thisIndex + 1)
                         (A ++ [item result 0])
          else match_all fuel' R' s thisIndex (A ++ [item result 0])
      end
  end.

(** ES5 15.5.4.10, [s.match(R)] on a RegExp object: [exec] when the object
    is not global, the array of all the matches, or [null] when there is
    none, when it is. *)
Definition String_match_object (s : string) (R : RegExpObject)
  : option (list (option string)) * RegExpObject :=
  if negb (global R) then exec_object R s
  else
    let '(A, R') := match_all (S (S (String.length s))) (setLastIndex R 0) s 0 [] in
    (match A with [] => None | _ :: _ => Some A end, R').

(** The object [_NUMBER_FORMAT_REGEXP] is bound to: the pattern of the
    literal, which has no flag, with the [lastIndex] the object happens to
    have. The pattern and the flag of an object never change. *)
Definition NUMBER_FORMAT_REGEXP_object (lastIndex : nat) : RegExpObject :=
  mkObject _NUMBER_FORMAT_REGEXP false lastIndex.

(** [formatNumber] with the object of the pattern made explicit: the
    computation of the call, and the object as the call leaves it. Only
    [digits.match(_NUMBER_FORMAT_REGEXP)] touches the object. *)
Definition formatNumber_on (R : RegExpObject) (pipe : PipeClass) (locale : string)
    (value : Value) (style : NumberFormatStyle) (digits : option string)
    (currency : option string) (currencyAsSymbol : bool)
  : Prog (option string) * RegExpObject :=
  if isBlank value then (Ret None, R) else
  (* Convert strings to numbers *)
  let value :=
    match value with
    | Str s => if NumberWrapper.isNumeric s then Number (ToNumber s) else value
    | _ => value
    end in
  match value with
  | Number num =>
      let '(minInt, minFraction, maxFraction) :=
        if negb (NumberFormatStyle_eqb style Currency)
        then (* rely on Intl default for currency *)
             (Some (number_of_Z 1), Some (number_of_Z 0), Some (number_of_Z 3))
        else (None, None, None) in
      let '(bounds, R') :=
        match digits with
        | Some digits =>
            let '(parts, R') := String_match_object digits R in
            (match parts with
             | None =>
                 Throw (Error (digits ++ " is not a valid digit info for number pipes")%string)
             | Some parts =>
                 minInt <-
                   match item parts 1 with (* min integer digits *)
                   | Some text =>
                       n <- NumberWrapper.parseIntAutoRadix text ;; Ret (Some n)
                   | None => Ret minInt
                   end ;;
                 minFraction <-
                   match item parts 3 with (* min fraction digits *)
                   | Some text =>
                       n <- NumberWrapper.parseIntAutoRadix text ;; Ret (Some n)
                   | None => Ret minFraction
                   end ;;
                 maxFraction <-
                   match item parts 5 with (* max fraction digits *)
                   | Some text =>
                       n <- NumberWrapper.parseIntAutoRadix text ;; Ret (Some n)
                   | None => Ret maxFraction
                   end ;;
                 Ret (minInt, minFraction, maxFraction)
             end, R')
        | None => (Ret (minInt, minFraction, maxFraction), R)
        end in
      (b <- bounds ;;
       let '(minInt, minFraction, maxFraction) := b in
       s <- NumberFormatter.format num locale style
              (mkOptions minInt minFraction maxFraction currency currencyAsSymbol) ;;
       Ret (Some s),
       R')
  | _ => (Throw (InvalidPipeArgumentError pipe value), R)
  end.

(** The characters a digit info is written with, and the number of times a
    character occurs in a text. *)
Definition allowedChar (c : ascii) : bool :=
  (isDigit c || Ascii.eqb c "." || Ascii.eqb c "-")%bool.

Fixpoint occurrences (c : ascii) (l : list ascii) : nat :=
  match l with
  | [] => 0
  | d :: t => ((if Ascii.eqb d c then 1 else 0) + occurrences c t)%nat
  end.

(** ** The digit-info pattern, step by step

    What the matcher computes on the digit-info pattern, written as plain
    functions of the input; the lemmas below show that the matcher agrees
    with them. *)

Definition leading (p : ascii -> bool) (l : list ascii) : bool :=
  match l with
  | c :: _ => p c
  | [] => false
  end.

(** A continuation that fails whenever the input left satisfies [q]. *)
Definition fails_on (q : list ascii -> bool) (c : Continuation) : Prop :=
  forall y, q (rest y) = true -> c y = None.

Definition fractionMatch (e : nat) (r2 : list ascii) (caps : list (option string))
  : MatchResult :=
  let (b, r3) := span isDigit r2 in
  match b with
  | [] => match r3 with
          | [] => Some (mkState e [] caps)
          | _ :: _ => None
          end
  | _ :: _ =>
      let e3 := (List.length b + e)%nat in
      let caps3 := update (clearCaptures [2; 3; 4; 5] caps) 3 (Some (str b)) in
      match r3 with
      | [] => Some (mkState e3 [] (update caps3 2 (Some (str b))))
      | ch :: r4 =>
          if Ascii.eqb ch "-" then
            let (m, r5) := span isDigit r4 in
            match m, r5 with
            | _ :: _, [] =>
                Some (mkState (List.length m + S e3) []
                        (update
                           (update
                              (update (clearCaptures [4; 5] caps3) 5 (Some (str m)))
                              4 (Some (str ("-"%char :: m))))
                           2 (Some (str (b ++ "-"%char :: m)))))
            | _, _ => None
            end
          else None
      end
  end.

Local Abbreviation dashPart :=
  (Opt (Group 4 (Seq (Char "-") (Group 5 (Plus Digit))))).
Local Abbreviation fractionPart :=
  (Opt (Group 2 (Seq (Group 3 (Plus Digit)) dashPart))).

Definition patternMatch (l : list ascii) : MatchResult :=
  let (a, r1) := span isDigit l in
  match r1 with
  | ch :: r2 =>
      if Ascii.eqb ch "." then
        fractionMatch (S (List.length a + 0)) r2
          match a with
          | [] => repeat None 6
          | _ :: _ => update (clearCaptures [1] (repeat None 6)) 1 (Some (str a))
          end
      else None
  | [] => None
  end.

(** The empty check of RepeatMatcher, once input has been consumed. *)
Ltac consumed :=
  repeat match goal with
         | |- context [(?a =? ?b)%nat] =>
             replace (a =? b)%nat with false by (symmetry; apply Nat.eqb_neq; lia)
         end.

(** ** Matching the digit-info pattern *)

Lemma span_spec p l a r :
  span p l = (a, r) -> l = a ++ r /\ forallb p a = true /\ leading p r = false.
Proof.
  revert a r; induction l as [|c t IH]; simpl; intros a r H.
  - inversion H; subst; auto.
  - destruct (p c) eqn:Hc.
    + destruct (span p t) as [a' r'] eqn:Ht. inversion H; subst.
      destruct (IH a' r eq_refl) as (-> & Ha & Hr).
      simpl. rewrite Hc, Ha. auto.
    + inversion H; subst. simpl. auto.
Qed.

Lemma span_app p a r :
  forallb p a = true -> leading p r = false -> span p (a ++ r) = (a, r).
Proof.
  induction a as [|c a IH]; simpl; intros Ha Hr.
  - destruct r as [|d r]; simpl in *; [reflexivity | now rewrite Hr].
  - apply andb_true_iff in Ha as [Hc Ha]. now rewrite Hc, IH.
Qed.

Lemma Opt_unfold r x c :
  matcher (Opt r) x c =
  match matcher r (clear (parens r) x)
          (fun y => if (endIndex y =? endIndex x)%nat then None else c y) with
  | Some z => Some z
  | None => c x
  end.
Proof. reflexivity. Qed.

Lemma Star_unfold fuel m ks x c :
  RepeatMatcher (S fuel) m 0 None ks x c =
  match m (clear ks x)
          (fun y => if (endIndex y =? endIndex x)%nat then None
                    else RepeatMatcher fuel m 0 None ks y c) with
  | Some z => Some z
  | None => c x
  end.
Proof. reflexivity. Qed.

Lemma Plus_unfold r x c :
  matcher (Plus r) x c =
  matcher r (clear (parens r) x)
    (fun y => RepeatMatcher (S (S (List.length (rest x)))) (matcher r) 0 None (parens r) y c).
Proof. reflexivity. Qed.

Lemma Digit_unfold e d t caps c :
  matcher Digit (mkState e (d :: t) caps) c =
  if isDigit d then c (mkState (S e) t caps) else None.
Proof. reflexivity. Qed.

Lemma clear_nil x : clear [] x = x.
Proof. now destruct x. Qed.

(** [\d*] against a run of digits [a] followed by [r]: when the continuation
    fails in front of a digit, the whole run is taken. *)
Lemma star_digits a : forall fuel e r caps c,
  (List.length a < fuel)%nat ->
  forallb isDigit a = true -> leading isDigit r = false ->
  fails_on (leading isDigit) c ->
  RepeatMatcher fuel (matcher Digit) 0 None [] (mkState e (a ++ r) caps) c =
  c (mkState (List.length a + e) r caps).
Proof.
  induction a as [|d a IH]; intros fuel e r caps c Hfuel Ha Hr Hc;
    (destruct fuel as [|fuel]; [simpl in Hfuel; lia|]);
    rewrite Star_unfold, clear_nil.
  - simpl. destruct r as [|d r]; [reflexivity|].
    simpl in Hr. now rewrite Hr.
  - simpl in Ha. apply andb_true_iff in Ha as [Hd Ha].
    simpl app. rewrite Digit_unfold, Hd. cbn [endIndex].
    replace (S e =? e)%nat with false by (symmetry; apply Nat.eqb_neq; lia).
    rewrite IH; [|simpl in Hfuel; lia|assumption..].
    replace (List.length a + S e)%nat with (List.length (d :: a) + e)%nat by (simpl; lia).
    destruct (c _) eqn:E; [reflexivity|].
    apply Hc. simpl. exact Hd.
Qed.

(** [\d+] against the same input. *)
Lemma plus_digits a e r caps c :
  forallb isDigit a = true -> leading isDigit r = false ->
  fails_on (leading isDigit) c ->
  matcher (Plus Digit) (mkState e (a ++ r) caps) c =
  match a with
  | [] => None
  | _ :: _ => c (mkState (List.length a + e) r caps)
  end.
Proof.
  intros Ha Hr Hc. rewrite Plus_unfold. cbn [parens rest]. rewrite clear_nil.
  destruct a as [|d a].
  - simpl. destruct r as [|d r]; [reflexivity|]. simpl in Hr. now rewrite Hr.
  - simpl in Ha. apply andb_true_iff in Ha as [Hd Ha].
    simpl app. rewrite Digit_unfold, Hd.
    rewrite star_digits; try assumption.
    + f_equal. f_equal. simpl. lia.
    + simpl. rewrite length_app. lia.
Qed.

Lemma Group_unfold n r x c :
  matcher (Group n r) x c =
  matcher r x (fun y =>
    c (mkState (endIndex y) (rest y)
         (update (captures y) n
            (Some (str (firstn (endIndex y - endIndex x) (rest x))))))).
Proof. reflexivity. Qed.

Lemma Seq_unfold r1 r2 x c :
  matcher (Seq r1 r2) x c = matcher r1 x (fun y => matcher r2 y c).
Proof. reflexivity. Qed.

Lemma Char_unfold ch e d t caps c :
  matcher (Char ch) (mkState e (d :: t) caps) c =
  if Ascii.eqb d ch then c (mkState (S e) t caps) else None.
Proof. reflexivity. Qed.

Lemma firstn_exact {A} n (a r : list A) :
  n = List.length a -> firstn n (a ++ r) = a.
Proof.
  intros ->. rewrite firstn_app, Nat.sub_diag, firstn_all. simpl. apply app_nil_r.
Qed.

Lemma eqb_consumed n e : (S n + e =? e)%nat = false.
Proof. apply Nat.eqb_neq. lia. Qed.

(** [(\d+)] as the [n]-th group. *)
Lemma group_plus_digits n a e r caps c :
  forallb isDigit a = true -> leading isDigit r = false ->
  fails_on (leading isDigit) c ->
  matcher (Group n (Plus Digit)) (mkState e (a ++ r) caps) c =
  match a with
  | [] => None
  | _ :: _ => c (mkState (List.length a + e) r (update caps n (Some (str a))))
  end.
Proof.
  intros Ha Hr Hc. rewrite Group_unfold, plus_digits; try assumption.
  - destruct a as [|d a]; [reflexivity|]. cbn [endIndex rest captures].
    rewrite firstn_exact by lia. reflexivity.
  - intros y Hy. apply Hc. exact Hy.
Qed.

(** [(\d+)?] as the [n]-th group. *)
Lemma opt_group_plus_digits n a e r caps c :
  forallb isDigit a = true -> leading isDigit r = false ->
  fails_on (leading isDigit) c ->
  matcher (Opt (Group n (Plus Digit))) (mkState e (a ++ r) caps) c =
  match a with
  | [] => c (mkState e r caps)
  | _ :: _ => c (mkState (List.length a + e) r
                   (update (clearCaptures [n] caps) n (Some (str a))))
  end.
Proof.
  intros Ha Hr Hc. rewrite Opt_unfold. unfold clear.
  change (parens (Group n (Plus Digit))) with [n]. cbn [endIndex rest captures].
  rewrite group_plus_digits; try assumption.
  - destruct a as [|d a]; [reflexivity|]. cbn [endIndex List.length].
    rewrite eqb_consumed. destruct (c _) eqn:E; [reflexivity|].
    apply Hc. simpl. simpl in Ha. now apply andb_true_iff in Ha as [Hd _].
  - intros y Hy. destruct (_ =? _)%nat; [reflexivity|]. now apply Hc.
Qed.

Lemma digit_not_dot d : isDigit d = true -> Ascii.eqb d "." = false.
Proof.
  destruct d as [[] [] [] [] [] [] [] []]; intros H; try reflexivity; discriminate H.
Qed.

Lemma digit_not_dash d : isDigit d = true -> Ascii.eqb d "-" = false.
Proof.
  destruct d as [[] [] [] [] [] [] [] []]; intros H; try reflexivity; discriminate H.
Qed.

Lemma Eol_unfold e l caps c :
  matcher Eol (mkState e l caps) c =
  match l with [] => c (mkState e l caps) | _ :: _ => None end.
Proof. reflexivity. Qed.

Lemma Char_nil ch e caps c : matcher (Char ch) (mkState e [] caps) c = None.
Proof. reflexivity. Qed.

Lemma firstn_prefix {A} n (a r l : list A) :
  l = a ++ r -> n = List.length a -> firstn n l = a.
Proof. intros -> ->. now apply firstn_exact. Qed.

Lemma fraction_part e r2 caps :
  matcher (Seq fractionPart Eol) (mkState e r2 caps) Some = fractionMatch e r2 caps.
Proof.
  unfold fractionMatch.
  destruct (span isDigit r2) as [b r3] eqn:Hs.
  apply span_spec in Hs as (-> & Hb & Hr3).
  rewrite Seq_unfold, Opt_unfold. unfold clear.
  change (parens (Group 2 (Seq (Group 3 (Plus Digit)) dashPart))) with [2; 3; 4; 5].
  cbn [endIndex rest captures].
  rewrite Group_unfold, Seq_unfold.
  rewrite group_plus_digits; try assumption.
  - destruct b as [|d b].
    + simpl app. rewrite Eol_unfold. destruct r3; reflexivity.
    + cbn [endIndex rest captures]. rewrite Opt_unfold. unfold clear.
      change (parens (Group 4 (Seq (Char "-") (Group 5 (Plus Digit))))) with [4; 5].
      cbn [endIndex rest captures].
      rewrite Group_unfold, Seq_unfold.
      destruct r3 as [|ch r4].
      * rewrite Char_nil. cbn [List.length]. consumed. rewrite Eol_unfold.
        rewrite firstn_exact by (cbn [List.length]; lia). reflexivity.
      * rewrite Char_unfold. destruct (Ascii.eqb ch "-") eqn:Hch.
        -- destruct (span isDigit r4) as [m r5] eqn:Hm.
           apply span_spec in Hm as (-> & Hm & Hr5).
           rewrite group_plus_digits; try assumption.
           ++ destruct m as [|dm m].
              ** cbn [List.length]. consumed. rewrite !Eol_unfold. reflexivity.
              ** cbn [endIndex rest captures List.length]. consumed.
                 apply Ascii.eqb_eq in Hch. subst ch.
                 rewrite (firstn_prefix _ ("-"%char :: dm :: m) r5)
                   by (try reflexivity; cbn [List.length]; lia).
                 rewrite (firstn_prefix _ ((d :: b) ++ "-"%char :: dm :: m) r5)
                   by (rewrite <- ?app_assoc, ?length_app; try reflexivity;
                       cbn [List.length]; lia).
                 rewrite !Eol_unfold.
                 destruct r5; reflexivity.
           ++ intros y Hy. cbn [endIndex rest captures].
              destruct (_ =? _)%nat; [reflexivity|].
              destruct (_ =? _)%nat; [reflexivity|].
              destruct (rest y); [discriminate Hy | reflexivity].
        -- cbn [List.length]. consumed. rewrite !Eol_unfold. reflexivity.
  - intros y Hy. destruct y as [ey [|dy ty] cy]; [discriminate Hy|].
    simpl in Hy. rewrite Opt_unfold. unfold clear.
    cbn [endIndex rest captures]. rewrite Group_unfold, Seq_unfold, Char_unfold.
    rewrite (digit_not_dash _ Hy). cbn [endIndex rest captures].
    destruct (_ =? _)%nat; reflexivity.
Qed.

Lemma whole_pattern l :
  matcher (source _NUMBER_FORMAT_REGEXP) (mkState 0 l (repeat None 6)) Some =
  patternMatch l.
Proof.
  unfold patternMatch.
  destruct (span isDigit l) as [a r1] eqn:Hs.
  apply span_spec in Hs as (-> & Ha & Hr1).
  cbn [source _NUMBER_FORMAT_REGEXP]. rewrite Seq_unfold.
  change (matcher Bol (mkState 0 (a ++ r1) (repeat None 6)) ?c)
    with (c (mkState 0 (a ++ r1) (repeat None 6))).
  cbv beta. rewrite Seq_unfold, opt_group_plus_digits; try assumption.
  - destruct a as [|d a];
      (destruct r1 as [|ch r2]; [reflexivity|]);
      cbv beta; rewrite Seq_unfold, Char_unfold;
      (destruct (Ascii.eqb ch "."); [|reflexivity]);
      apply fraction_part.
  - intros y Hy. destruct y as [ey [|dy ty] cy]; [discriminate Hy|].
    simpl in Hy. rewrite Seq_unfold, Char_unfold, (digit_not_dot _ Hy). reflexivity.
Qed.

Lemma exec_from_later l : forall i, exec_from _NUMBER_FORMAT_REGEXP (S i) l = None.
Proof. induction l as [|c l IH]; intros i; [reflexivity|]. exact (IH (S i)). Qed.

Lemma exec_from_start l :
  exec_from _NUMBER_FORMAT_REGEXP 0 l =
  match patternMatch l with
  | Some y => Some (mkState (endIndex y) (rest y)
                      (update (captures y) 0 (Some (str (firstn (endIndex y - 0) l)))))
  | None => None
  end.
Proof.
  rewrite <- whole_pattern.
  destruct l as [|c l]; cbn [exec_from nCapturingParens _NUMBER_FORMAT_REGEXP].
  - reflexivity.
  - rewrite exec_from_later. reflexivity.
Qed.

Lemma str_app a b : str (a ++ b) = (str a ++ str b)%string.
Proof. induction a as [|c a IH]; simpl; [reflexivity|]. now rewrite IH. Qed.

Lemma str_chars s : str (chars s) = s.
Proof. apply string_of_list_ascii_of_string. Qed.

Lemma chars_str l : chars (str l) = l.
Proof. apply list_ascii_of_string_of_list_ascii. Qed.

Lemma chars_app a b : chars (a ++ b)%string = chars a ++ chars b.
Proof. induction a as [|c a IH]; simpl; [reflexivity|]. now rewrite IH. Qed.

(** The pattern, as JavaScript matches it, reads the three fields of the
    grammar. [fields] is total and has no bound on rounds: on this pattern
    the matcher never runs out of them. *)
Lemma match_fields s :
  String_match s _NUMBER_FORMAT_REGEXP = option_map (matchArray s) (fields s).
Proof.
  unfold String_match, exec, fields. rewrite exec_from_start.
  unfold patternMatch, fractionMatch.
  destruct (span isDigit (chars s)) as [a r1] eqn:Hs.
  apply span_spec in Hs as (Hl & Ha & Hr1).
  destruct r1 as [|ch r2]; [reflexivity|].
  destruct (Ascii.eqb ch "."); [|reflexivity].
  destruct (span isDigit r2) as [b r3] eqn:Hb.
  apply span_spec in Hb as (-> & Hb & Hr3).
  assert (Hwhole : forall n, (List.length (chars s) <= n)%nat ->
                             str (firstn (n - 0) (chars s)) = s).
  { intros n Hn. now rewrite Nat.sub_0_r, firstn_all2, str_chars. }
  destruct b as [|db b].
  - destruct r3; [|reflexivity].
    cbn [option_map captures endIndex rest matchArray].
    rewrite Hwhole
        by (rewrite Hl; repeat first [rewrite length_app | progress cbn [List.length app]]; lia).
    destruct a; reflexivity.
  - destruct r3 as [|ch' r4].
    + cbn [option_map captures endIndex rest matchArray].
      rewrite Hwhole
        by (rewrite Hl; repeat first [rewrite length_app | progress cbn [List.length app]]; lia).
      destruct a; reflexivity.
    + destruct (Ascii.eqb ch' "-"); [|reflexivity].
      destruct (span isDigit r4) as [m r5] eqn:Hm.
      apply span_spec in Hm as (-> & Hm & Hr5).
      destruct m as [|dm m]; [reflexivity|].
      destruct r5; [|reflexivity].
      cbn [option_map captures endIndex rest matchArray].
      rewrite Hwhole
        by (rewrite Hl; repeat first [rewrite length_app | progress cbn [List.length app]]; lia).
      rewrite str_app.
      destruct a; reflexivity.
Qed.

(** ** The grammar and the fields *)

Lemma isDigits_chars t :
  isDigits t = true -> forallb isDigit (chars t) = true /\ chars t <> [].
Proof.
  unfold isDigits. destruct (chars t) as [|c l] eqn:E; [discriminate|].
  intros H; split; [exact H | discriminate].
Qed.

Lemma isDigits_str l :
  forallb isDigit l = true -> l <> [] -> isDigits (str l) = true.
Proof.
  unfold isDigits. rewrite chars_str. destruct l; [congruence | auto].
Qed.

Lemma optDigits_chars i :
  optDigits i = true ->
  forallb isDigit (chars (text i)) = true /\ some_digits (chars (text i)) = i.
Proof.
  destruct i as [t|]; simpl; [|auto].
  intros H. destruct (isDigits_chars t H) as [Hall Hne]. split; [exact Hall|].
  unfold some_digits. destruct (chars t) eqn:E; [congruence|].
  now rewrite <- E, str_chars.
Qed.

Lemma some_digits_text a :
  forallb isDigit a = true ->
  optDigits (some_digits a) = true /\ str a = text (some_digits a).
Proof.
  intros H. destruct a as [|c a]; [now split|].
  split; [|reflexivity]. apply isDigits_str; [exact H | discriminate].
Qed.

Lemma chars_inj s t : chars s = chars t -> s = t.
Proof. intros H. now rewrite <- (str_chars s), <- (str_chars t), H. Qed.

Lemma fields_sound s i f m : fields s = Some (i, f, m) -> DigitInfo s i f m.
Proof.
  unfold fields.
  destruct (span isDigit (chars s)) as [a r1] eqn:Hs.
  apply span_spec in Hs as (Hl & Ha & _).
  destruct (some_digits_text a Ha) as [Hi Hti].
  destruct r1 as [|ch r2]; [discriminate|].
  destruct (Ascii.eqb ch ".") eqn:Hch; [|discriminate].
  apply Ascii.eqb_eq in Hch. subst ch.
  destruct (span isDigit r2) as [b r3] eqn:Hb.
  apply span_spec in Hb as (-> & Hb & _).
  destruct b as [|db b].
  - destruct r3; [|discriminate]. intros H; inversion H; subst i f m.
    replace s with (text (some_digits a) ++ ".")%string; [now constructor|].
    apply chars_inj. now rewrite chars_app, <- Hti, chars_str, Hl.
  - destruct r3 as [|ch' r4].
    + intros H; inversion H; subst i f m.
      replace s with (text (some_digits a) ++ "." ++ str (db :: b))%string.
      * constructor; [exact Hi|]. apply (isDigits_str (db :: b)); [exact Hb | discriminate].
      * apply chars_inj.
        now rewrite !chars_app, <- Hti, !chars_str, Hl, app_nil_r.
    + destruct (Ascii.eqb ch' "-") eqn:Hch'; [|discriminate].
      apply Ascii.eqb_eq in Hch'. subst ch'.
      destruct (span isDigit r4) as [m' r5] eqn:Hm.
      apply span_spec in Hm as (-> & Hm & _).
      destruct m' as [|dm m']; [discriminate|].
      destruct r5; [|discriminate]. intros H; inversion H; subst i f m.
      replace s
        with (text (some_digits a) ++ "." ++ str (db :: b) ++ "-" ++ str (dm :: m'))%string.
      * constructor; [exact Hi | apply (isDigits_str (db :: b))
                               | apply (isDigits_str (dm :: m'))];
          (assumption || discriminate).
      * apply chars_inj.
        rewrite !chars_app, <- Hti, !chars_str, Hl, app_nil_r. reflexivity.
Qed.

Lemma span_all p a : forallb p a = true -> span p a = (a, []).
Proof.
  intros H. rewrite <- (app_nil_r a) at 1. now apply span_app.
Qed.

Lemma fields_complete s i f m : DigitInfo s i f m -> fields s = Some (i, f, m).
Proof.
  intros H. unfold fields. destruct H as [i Hi | i f Hi Hf | i f m Hi Hf Hm];
    destruct (optDigits_chars i Hi) as [Hai Hsi];
    rewrite !chars_app.
  - rewrite span_app by (assumption || reflexivity).
    cbn. now rewrite Hsi.
  - destruct (isDigits_chars f Hf) as [Haf Hnf].
    rewrite span_app by (assumption || reflexivity).
    cbn [chars list_ascii_of_string app]. rewrite Ascii.eqb_refl.
    rewrite span_all by assumption.
    destruct (chars f) eqn:E; [congruence|].
    now rewrite <- E, str_chars, Hsi.
  - destruct (isDigits_chars f Hf) as [Haf Hnf].
    destruct (isDigits_chars m Hm) as [Ham Hnm].
    rewrite span_app by (assumption || reflexivity).
    cbn [chars list_ascii_of_string app]. rewrite Ascii.eqb_refl.
    rewrite span_app by (assumption || reflexivity).
    destruct (chars f) eqn:E; [congruence|]. rewrite <- E, str_chars.
    rewrite Ascii.eqb_refl, span_all by assumption.
    destruct (chars m) eqn:E'; [congruence|].
    now rewrite <- E', str_chars, Hsi.
Qed.

(** ** Reading the fields *)

Lemma digit_radix10 d : isDigit d = true -> isRadixDigit 10 d = true.
Proof.
  destruct d as [[] [] [] [] [] [] [] []]; intros H; try discriminate H; reflexivity.
Qed.

Lemma digit_not_x d :
  isDigit d = true -> (Ascii.eqb d "x" || Ascii.eqb d "X")%bool = false.
Proof.
  destruct d as [[] [] [] [] [] [] [] []]; intros H; try discriminate H; reflexivity.
Qed.

Lemma autoRadix_digits l :
  forallb isDigit l = true -> l <> [] ->
  exists radix body c ds r,
    NumberWrapper.autoRadix l = (radix, body) /\
    span (isRadixDigit radix) body = (c :: ds, r).
Proof.
  destruct l as [|d l]; [congruence|]. intros H _.
  simpl in H. apply andb_true_iff in H as [Hd Hl].
  unfold NumberWrapper.autoRadix.
  destruct (Ascii.eqb d "0") eqn:E0.
  - apply Ascii.eqb_eq in E0. subst d.
    destruct l as [|c1 l'].
    + exists 8%Z, ["0"%char], "0"%char, [], []. split; reflexivity.
    + simpl in Hl. apply andb_true_iff in Hl as [Hc1 _].
      rewrite (digit_not_x _ Hc1).
      destruct (span (isRadixDigit 8) (c1 :: l')) as [ds r] eqn:Es.
      exists 8%Z, ("0"%char :: c1 :: l'), "0"%char, ds, r. split; [reflexivity|].
      change (span (isRadixDigit 8) ("0"%char :: c1 :: l'))
        with (let (a, r) := span (isRadixDigit 8) (c1 :: l') in ("0"%char :: a, r)).
      now rewrite Es.
  - destruct (span (isRadixDigit 10) l) as [ds r] eqn:Es.
    exists 10%Z, (d :: l), d, ds, r. split; [reflexivity|].
    simpl. now rewrite (digit_radix10 _ Hd), Es.
Qed.

(** A field of digits always reads as a number. *)
Lemma parseIntAutoRadix_digits t :
  isDigits t = true -> NumberWrapper.parseIntAutoRadix t = Ret (fieldNumber t).
Proof.
  intros H. destruct (isDigits_chars t H) as [Hall Hne].
  destruct (autoRadix_digits _ Hall Hne) as (radix & body & c & ds & r & Ha & Hs).
  unfold NumberWrapper.parseIntAutoRadix, fieldNumber.
  now rewrite Ha, Hs.
Qed.

Lemma DigitInfo_digits s i f m :
  DigitInfo s i f m -> optDigits i = true /\ optDigits f = true /\ optDigits m = true.
Proof. intros [ | | ]; simpl; auto. Qed.

(** ** The dispatcher on a number *)

(** With a digit info, [formatNumber] on a number either delegates with the
    merged bounds or throws the digit-info error. *)
Lemma formatNumber_digits pipe locale num style s cur sym :
  formatNumber pipe locale (Number num) style (Some s) cur sym =
  match fields s with
  | Some ifm => delegate (mkCall num locale style (mergedOptions style ifm cur sym))
  | None => Throw (InvalidDigitInfo s)
  end.
Proof.
  unfold formatNumber. cbn [isBlank]. rewrite match_fields.
  destruct (fields s) as [[[i f] m]|] eqn:E.
  - apply fields_sound, DigitInfo_digits in E as (Hi & Hf & Hm).
    cbn [option_map matchArray item nth].
    destruct i as [i|], f as [f|], m as [m|]; simpl in Hi, Hf, Hm;
      rewrite ?(parseIntAutoRadix_digits _ Hi), ?(parseIntAutoRadix_digits _ Hf),
              ?(parseIntAutoRadix_digits _ Hm);
      destruct style; reflexivity.
  - destruct style; reflexivity.
Qed.

(** Without a digit info it delegates with the defaults of the style. *)
Lemma formatNumber_no_digits pipe locale num style cur sym :
  formatNumber pipe locale (Number num) style None cur sym =
  delegate (mkCall num locale style (mergedOptions style (None, None, None) cur sym)).
Proof. destruct style; reflexivity. Qed.

(** A numeric string is handled as the number it converts to. *)
Lemma formatNumber_numeric_string pipe locale s style digits cur sym :
  NumberWrapper.isNumeric s = true ->
  formatNumber pipe locale (Str s) style digits cur sym
  = formatNumber pipe locale (Number (ToNumber s)) style digits cur sym.
Proof. intros H. unfold formatNumber. cbn [isBlank]. now rewrite H. Qed.

Lemma append_empty s : (s ++ "")%string = s.
Proof. induction s as [|c s IH]; simpl; [reflexivity|]. now rewrite IH. Qed.

(** The grammar of the pattern is the grammar of the specification without
    the texts that write a maximum and no minimum. *)
Lemma DigitInfo_SpecDigitInfo s i f m :
  DigitInfo s i f m <-> SpecDigitInfo s i f m /\ (f = None -> m = None).
Proof.
  unfold SpecDigitInfo. split.
  - intros [i' Hi | i' f' Hi Hf | i' f' m' Hi Hf Hm]; cbn [optDigits text];
      rewrite ?append_empty; repeat split; auto; discriminate.
  - intros ((Hi & Hf & Hm & ->) & Hfm).
    destruct f as [f|]; [destruct m as [m|]|rewrite (Hfm eq_refl)];
      cbn [text]; rewrite ?append_empty.
    + now constructor.
    + now constructor.
    + now apply DigitInfo_integer.
Qed.

(** ** Running a computation *)

Lemma run_delegate {Env} (h : Collaborator Env) call env :
  run h (delegate call) env =
  match h call env with
  | (Normal s, env') => (Normal (Some s), env', [call])
  | (Abrupt e, env') => (Abrupt e, env', [call])
  end.
Proof. unfold delegate. simpl. destruct (h call env) as [[s|e] env']; reflexivity. Qed.

(** A formatter whose answer does not depend on its state gives a run whose
    completion and calls do not depend on the state either. *)
Lemma run_pure {Env A} (h : Collaborator Env) (p : Prog A) :
  (forall call e1 e2, fst (h call e1) = fst (h call e2)) ->
  forall e1 e2,
    result (run h p e1) = result (run h p e2) /\ calls (run h p e1) = calls (run h p e2).
Proof.
  intros Hpure. induction p as [a|e|call k IH]; intros e1 e2; [now split..|].
  simpl. specialize (Hpure call e1 e2).
  destruct (h call e1) as [r1 e1'], (h call e2) as [r2 e2']. simpl in Hpure. subst r2.
  destruct r1 as [s|e]; [|now split].
  destruct (IH s e1' e2') as [Hr Hc]. unfold result, calls in *.
  destruct (run h (k s) e1') as [[r1 ?] c1], (run h (k s) e2') as [[r2 ?] c2].
  simpl in *. now subst.
Qed.

Lemma calls_delegate {Env} (h : Collaborator Env) call env :
  calls (run h (delegate call) env) = [call].
Proof. rewrite run_delegate. destruct (h call env) as [[s|e] env']; reflexivity. Qed.

(** What [formatNumber] can do: return [null], throw, or hand the converted
    value to the locale formatter with the locale, the style, the currency
    and the symbol flag it was given and the bounds merged from the digit
    info. *)
Lemma formatNumber_shape pipe locale value style digits cur sym :
  formatNumber pipe locale value style digits cur sym = Ret None
  \/ (exists e, formatNumber pipe locale value style digits cur sym = Throw e)
  \/ (exists num ifm,
        coerced value = Number num
        /\ match digits with
           | Some d => fields d = Some ifm
           | None => ifm = (None, None, None)
           end
        /\ formatNumber pipe locale value style digits cur sym
           = delegate (mkCall num locale style (mergedOptions style ifm cur sym))).
Proof.
  assert (Hnum : forall num,
    (exists e, formatNumber pipe locale (Number num) style digits cur sym = Throw e)
    \/ (exists ifm,
          match digits with
          | Some d => fields d = Some ifm
          | None => ifm = (None, None, None)
          end
          /\ formatNumber pipe locale (Number num) style digits cur sym
             = delegate (mkCall num locale style (mergedOptions style ifm cur sym)))).
  { intros num. destruct digits as [d|].
    - rewrite formatNumber_digits. destruct (fields d) as [ifm|]; eauto.
    - rewrite formatNumber_no_digits. eauto. }
  destruct value as [| |b|n|s|o]; try (left; reflexivity);
    try (right; left; eexists; reflexivity).
  - right. destruct (Hnum n) as [He | (ifm & Hd & Hf)]; [left; exact He|].
    right. exists n, ifm. auto.
  - right. unfold coerced. destruct (NumberWrapper.isNumeric s) eqn:E.
    + rewrite (formatNumber_numeric_string _ _ _ _ _ _ _ E).
      destruct (Hnum (ToNumber s)) as [He | (ifm & Hd & Hf)]; [left; exact He|].
      right. exists (ToNumber s), ifm. auto.
    + left. unfold formatNumber. cbn [isBlank]. rewrite E. eexists; reflexivity.
Qed.

(** Every call a run of [formatNumber] makes carries the style, the currency
    and the symbol flag of the dispatcher and, without a digit info, the
    default bounds of the style. *)
Lemma formatNumber_calls {Env} (h : Collaborator Env) env
    pipe locale value style digits cur sym call :
  In call (calls (run h (formatNumber pipe locale value style digits cur sym) env)) ->
  call_locale call = locale /\ call_style call = style
  /\ currency (call_opts call) = cur /\ currencyAsSymbol (call_opts call) = sym
  /\ (digits = None -> bounds (call_opts call) = defaultBounds style).
Proof.
  destruct (formatNumber_shape pipe locale value style digits cur sym)
    as [-> | [[e ->] | (num & ifm & _ & Hd & ->)]]; try (intros []).
  rewrite calls_delegate. intros [<- | []].
  destruct ifm as [[i f] m]. unfold mergedOptions.
  repeat split; try (destruct (defaultBounds style) as [[? ?] ?]; reflexivity).
  intros ->. injection Hd as -> -> ->. destruct style; reflexivity.
Qed.

(** ** The object of the pattern across calls *)

(** On the object of the pattern [exec] does not read [lastIndex]: the match
    is the match of the pattern from index 0. It leaves [lastIndex] as it
    was on a match and sets it to 0 on a failure. *)
Lemma exec_object_not_global li s :
  exec_object (NUMBER_FORMAT_REGEXP_object li) s
  = (String_match s _NUMBER_FORMAT_REGEXP,
     NUMBER_FORMAT_REGEXP_object
       match String_match s _NUMBER_FORMAT_REGEXP with
       | Some _ => li
       | None => 0%nat
       end).
Proof.
  unfold exec_object, String_match, exec, NUMBER_FORMAT_REGEXP_object.
  cbn [global regexp lastIndex skipn]. change (_ <? 0)%nat with false. cbv iota.
  destruct (exec_from _NUMBER_FORMAT_REGEXP 0 (chars s)); reflexivity.
Qed.

Lemma String_match_object_not_global li s :
  String_match_object s (NUMBER_FORMAT_REGEXP_object li)
  = (String_match s _NUMBER_FORMAT_REGEXP,
     NUMBER_FORMAT_REGEXP_object
       match String_match s _NUMBER_FORMAT_REGEXP with
       | Some _ => li
       | None => 0%nat
       end).
Proof. unfold String_match_object. cbn [global NUMBER_FORMAT_REGEXP_object negb]. apply exec_object_not_global. Qed.

(** A call of [formatNumber] computes what [formatNumber] computes without
    the object, whatever [lastIndex] the object has, and leaves the object
    with the [lastIndex] it had, or with 0 when the digit info was matched
    and rejected. *)
Lemma formatNumber_on_object li pipe locale value style digits cur sym :
  fst (formatNumber_on (NUMBER_FORMAT_REGEXP_object li)
         pipe locale value style digits cur sym)
  = formatNumber pipe locale value style digits cur sym
  /\ exists li',
       snd (formatNumber_on (NUMBER_FORMAT_REGEXP_object li)
              pipe locale value style digits cur sym)
       = NUMBER_FORMAT_REGEXP_object li'
       /\ (li' = li \/ li' = 0%nat).
Proof.
  assert (Hnum : forall num,
    fst (formatNumber_on (NUMBER_FORMAT_REGEXP_object li)
           pipe locale (Number num) style digits cur sym)
    = formatNumber pipe locale (Number num) style digits cur sym
    /\ exists li',
         snd (formatNumber_on (NUMBER_FORMAT_REGEXP_object li)
                pipe locale (Number num) style digits cur sym)
         = NUMBER_FORMAT_REGEXP_object li'
         /\ (li' = li \/ li' = 0%nat)).
  { intros num. unfold formatNumber_on, formatNumber. cbn [isBlank].
    destruct digits as [d|];
      [rewrite String_match_object_not_global;
       destruct (String_match d _NUMBER_FORMAT_REGEXP)|];
      destruct (negb (NumberFormatStyle_eqb style Currency));
      (split; [reflexivity | eexists; split; [reflexivity | auto]]). }
  destruct value as [| |b|n|t|o];
    try (split; [reflexivity | eexists; split; [reflexivity | auto]]).
  - apply Hnum.
  - destruct (NumberWrapper.isNumeric t) eqn:E.
    + specialize (Hnum (ToNumber t)).
      unfold formatNumber_on, formatNumber in *. cbn [isBlank] in *.
      rewrite E. exact Hnum.
    + unfold formatNumber_on, formatNumber. cbn [isBlank]. rewrite E.
      split; [reflexivity | eexists; split; [reflexivity | auto]].
Qed.

(** ** Properties of the pipes *)

(** C1, as the code has it: the dot of a digit info is never optional. For
    every pipe and style, on a number, the empty digit info [""] is rejected
    with the digit-info error, which quotes the (empty) text. The digit info
    made of the dot alone is accepted, has its three fields unset and
    overrides nothing: the formatter is called with the defaults of the
    style, exactly as when no digit info is given. *)
Theorem C1_dot_is_mandatory pipe locale num style cur sym :
  formatNumber pipe locale (Number num) style (Some "") cur sym
    = Throw (Error " is not a valid digit info for number pipes")
  /\ fields "." = Some (None, None, None)
  /\ formatNumber pipe locale (Number num) style (Some ".") cur sym
     = formatNumber pipe locale (Number num) style None cur sym
  /\ formatNumber pipe locale (Number num) style None cur sym
     = delegate (mkCall num locale style
                   (let '(minInt, minFraction, maxFraction) := defaultBounds style in
                    mkOptions minInt minFraction maxFraction cur sym)).
Proof.
  rewrite !formatNumber_digits, formatNumber_no_digits.
  repeat split; destruct style; reflexivity.
Qed.

(** C1 does not hold as it is stated: the pattern does not match the empty
    text, and the decimal pipe on the number 1 with the digit info [""]
    throws. *)
Lemma C1_empty_digit_info_throws :
  String_match "" _NUMBER_FORMAT_REGEXP = None
  /\ DecimalPipe_transform "en-US" (Number (number_of_Z 1)) (Some "")
     = Throw (Error " is not a valid digit info for number pipes").
Proof. split; reflexivity. Qed.

(** C2, as the code has it: on a number, a digit info is accepted exactly
    when it is in the grammar [[<minInt>].[<minFrac>[-<maxFrac>]]], and is
    rejected, with an error that quotes the text, exactly when it is not.
    This is the grammar as the specification words it, [SpecDigitInfo], with
    one restriction: a maximum is written only after a minimum; it is the
    grammar [DigitInfo]. ["3.2-4"] gives the bounds 3, 2 and 4, ["0.0-0"]
    gives three zeros, and ["1.2.3"], ["abc"] and ["1-2"] are rejected. *)
Theorem C2_digit_info_grammar pipe locale num style cur sym s :
  ((exists call, formatNumber pipe locale (Number num) style (Some s) cur sym
                 = delegate call)
   <-> exists i f m, SpecDigitInfo s i f m /\ (f = None -> m = None))
  /\ (formatNumber pipe locale (Number num) style (Some s) cur sym
      = Throw (Error (s ++ " is not a valid digit info for number pipes")%string)
      <-> ~ exists i f m, SpecDigitInfo s i f m /\ (f = None -> m = None))
  /\ (forall i f m,
        DigitInfo s i f m <-> SpecDigitInfo s i f m /\ (f = None -> m = None))
  /\ formatNumber pipe locale (Number num) style (Some "3.2-4") cur sym
     = delegate (mkCall num locale style
                   (mkOptions (Some (number_of_Z 3)) (Some (number_of_Z 2))
                              (Some (number_of_Z 4)) cur sym))
  /\ formatNumber pipe locale (Number num) style (Some "0.0-0") cur sym
     = delegate (mkCall num locale style
                   (mkOptions (Some (number_of_Z 0)) (Some (number_of_Z 0))
                              (Some (number_of_Z 0)) cur sym))
  /\ formatNumber pipe locale (Number num) style (Some "1.2.3") cur sym
     = Throw (Error "1.2.3 is not a valid digit info for number pipes")
  /\ formatNumber pipe locale (Number num) style (Some "abc") cur sym
     = Throw (Error "abc is not a valid digit info for number pipes")
  /\ formatNumber pipe locale (Number num) style (Some "1-2") cur sym
     = Throw (Error "1-2 is not a valid digit info for number pipes").
Proof.
  rewrite !formatNumber_digits.
  split; [|split; [|split; [|repeat split; destruct style; reflexivity]]].
  - split.
    + intros [call H]. destruct (fields s) as [[[i f] m]|] eqn:E; [|discriminate H].
      exists i, f, m. now apply DigitInfo_SpecDigitInfo, fields_sound.
    + intros (i & f & m & H). apply DigitInfo_SpecDigitInfo in H.
      rewrite (fields_complete _ _ _ _ H). eauto.
  - split.
    + intros H (i & f & m & Hd). apply DigitInfo_SpecDigitInfo in Hd.
      rewrite (fields_complete _ _ _ _ Hd) in H. discriminate H.
    + intros H. destruct (fields s) as [[[i f] m]|] eqn:E; [|reflexivity].
      exfalso. apply H. exists i, f, m.
      now apply DigitInfo_SpecDigitInfo, fields_sound.
  - intros i f m. apply DigitInfo_SpecDigitInfo.
Qed.

(** C2 does not hold as it is stated: [".-3"] is a digit info of the grammar
    as the specification words it, with the maximum 3 and nothing else, and
    the decimal pipe rejects it. *)
Lemma C2_max_without_min_rejected :
  SpecDigitInfo ".-3" None None (Some "3")
  /\ DecimalPipe_transform "en-US" (Number (number_of_Z 1)) (Some ".-3")
     = Throw (Error ".-3 is not a valid digit info for number pipes").
Proof. repeat split. Qed.

(** C3: on a blank value ([null] or [undefined]) the dispatcher, and with it
    each of the three pipes, returns [null]: whatever the style and even with
    a digit info outside the grammar, nothing is thrown, the run makes no call
    to the locale formatter and leaves its state as it was. *)
Theorem C3_blank_value {Env} (h : Collaborator Env) env pipe locale value style
    digits cur sym code symbol :
  isBlank value = true ->
  formatNumber pipe locale value style digits cur sym = Ret None
  /\ run h (formatNumber pipe locale value style digits cur sym) env
     = (Normal None, env, [])
  /\ run h (DecimalPipe_transform locale value digits) env = (Normal None, env, [])
  /\ run h (PercentPipe_transform locale value digits) env = (Normal None, env, [])
  /\ run h (CurrencyPipe_transform locale value code symbol digits) env
     = (Normal None, env, []).
Proof.
  intros H.
  unfold DecimalPipe_transform, PercentPipe_transform, CurrencyPipe_transform,
    formatNumber.
  rewrite H. repeat split.
Qed.

(** The percent pipe on [null], with a digit info outside the grammar. *)
Lemma C3_blank_value_witness :
  isBlank Null = true
  /\ run countingFormatter (PercentPipe_transform "en-US" Null (Some "abc")) 0
     = (Normal None, 0, []).
Proof.
  split; [reflexivity|].
  apply (C3_blank_value countingFormatter 0 PercentPipe "en-US" Null Percent
           (Some "abc") None false None None).
  reflexivity.
Defined.

(** C4: a value that is present, is not a number and is not a numeric string
    makes each pipe throw [InvalidPipeArgumentError] carrying the class of
    that very pipe and the value as it was given, whatever the digit info. *)
Theorem C4_invalid_argument locale value digits code symbol :
  isBlank value = false ->
  isNumber value = false ->
  isNumericString value = false ->
  DecimalPipe_transform locale value digits
    = Throw (InvalidPipeArgumentError DecimalPipe value)
  /\ PercentPipe_transform locale value digits
     = Throw (InvalidPipeArgumentError PercentPipe value)
  /\ CurrencyPipe_transform locale value code symbol digits
     = Throw (InvalidPipeArgumentError CurrencyPipe value).
Proof.
  intros Hb Hn Hs.
  unfold DecimalPipe_transform, PercentPipe_transform, CurrencyPipe_transform,
    formatNumber.
  rewrite Hb.
  destruct value as [| |b|n|s|o]; try discriminate; simpl in Hs; rewrite ?Hs;
    repeat split.
Qed.

(** The currency pipe on the string ["abc"]. *)
Lemma C4_invalid_argument_witness :
  CurrencyPipe_transform "en-US" (Str "abc") None None (Some "1.2-2")
    = Throw (InvalidPipeArgumentError CurrencyPipe (Str "abc")).
Proof.
  apply (C4_invalid_argument "en-US" (Str "abc") (Some "1.2-2") None None);
    reflexivity.
Defined.

(** C5: without a digit info every call the decimal and the percent pipe
    make to the locale formatter carries [minimumIntegerDigits = 1],
    [minimumFractionDigits = 0] and [maximumFractionDigits = 3], and every
    call the currency pipe makes leaves the three bounds unset, whatever the
    value, the currency code and the symbol flag; on a number each pipe does
    make the call. *)
Theorem C5_default_bounds {Env} (h : Collaborator Env) env locale value num
    code symbol call :
  (In call (calls (run h (DecimalPipe_transform locale value None) env)) ->
   bounds (call_opts call)
   = (Some (number_of_Z 1), Some (number_of_Z 0), Some (number_of_Z 3)))
  /\ (In call (calls (run h (PercentPipe_transform locale value None) env)) ->
      bounds (call_opts call)
      = (Some (number_of_Z 1), Some (number_of_Z 0), Some (number_of_Z 3)))
  /\ (In call (calls (run h (CurrencyPipe_transform locale value code symbol None) env)) ->
      bounds (call_opts call) = (None, None, None))
  /\ DecimalPipe_transform locale (Number num) None
     = delegate (mkCall num locale Decimal
                   (mkOptions (Some (number_of_Z 1)) (Some (number_of_Z 0))
                              (Some (number_of_Z 3)) None false))
  /\ PercentPipe_transform locale (Number num) None
     = delegate (mkCall num locale Percent
                   (mkOptions (Some (number_of_Z 1)) (Some (number_of_Z 0))
                              (Some (number_of_Z 3)) None false))
  /\ CurrencyPipe_transform locale (Number num) code symbol None
     = delegate (mkCall num locale Currency
                   (mkOptions None None None
                      (Some match code with Some c => c | None => "USD" end)
                      match symbol with Some b => b | None => false end))
  /\ number_of_Z 1 = S754_finite false 4503599627370496 (-52)
  /\ number_of_Z 0 = S754_zero false
  /\ number_of_Z 3 = S754_finite false 6755399441055744 (-51).
Proof.
  unfold DecimalPipe_transform, PercentPipe_transform, CurrencyPipe_transform.
  repeat split; intros H; apply formatNumber_calls in H;
    now apply (proj2 (proj2 (proj2 (proj2 H)))).
Qed.

(** The percent pipe on the numeric string ["0.5"]: one call, with the
    bounds 1, 0 and 3. *)
Lemma C5_default_bounds_witness :
  calls (run countingFormatter (PercentPipe_transform "en-US" (Str "0.5") None) 0)
  = [mkCall (ToNumber "0.5") "en-US" Percent
       (mkOptions (Some (number_of_Z 1)) (Some (number_of_Z 0))
                  (Some (number_of_Z 3)) None false)]
  /\ bounds (mkOptions (Some (number_of_Z 1)) (Some (number_of_Z 0))
                       (Some (number_of_Z 3)) None false)
     = (Some (number_of_Z 1), Some (number_of_Z 0), Some (number_of_Z 3)).
Proof.
  split; [reflexivity|].
  apply (proj1 (proj2 (C5_default_bounds countingFormatter 0 "en-US" (Str "0.5")
                         (number_of_Z 1) None None
                         (mkCall (ToNumber "0.5") "en-US" Percent
                            (mkOptions (Some (number_of_Z 1)) (Some (number_of_Z 0))
                               (Some (number_of_Z 3)) None false))))).
  left. reflexivity.
Defined.

(** C6: a numeric string is formatted as the number it converts to: for
    every pipe, locale, style, digit info and currency the dispatcher gives
    the same computation, hence the same run against any locale formatter. *)
Theorem C6_numeric_string pipe locale s style digits cur sym :
  NumberWrapper.isNumeric s = true ->
  formatNumber pipe locale (Str s) style digits cur sym
    = formatNumber pipe locale (Number (ToNumber s)) style digits cur sym
  /\ forall Env (h : Collaborator Env) env,
       run h (formatNumber pipe locale (Str s) style digits cur sym) env
       = run h (formatNumber pipe locale (Number (ToNumber s)) style digits cur sym) env.
Proof.
  intros H.
  assert (E : formatNumber pipe locale (Str s) style digits cur sym
              = formatNumber pipe locale (Number (ToNumber s)) style digits cur sym).
  { now apply formatNumber_numeric_string. }
  split; [exact E|]. intros Env h env. now rewrite E.
Qed.

(** The decimal pipe on the string ["42.5"] and on the number 42.5. *)
Lemma C6_numeric_string_witness :
  NumberWrapper.isNumeric "42.5" = true
  /\ ToNumber "42.5" = S754_finite false 5981343255101440 (-47)
  /\ formatNumber DecimalPipe "en-US" (Str "42.5") Decimal (Some "1.2-2") None false
     = formatNumber DecimalPipe "en-US" (Number (ToNumber "42.5")) Decimal
         (Some "1.2-2") None false.
Proof.
  split; [reflexivity|]. split; [reflexivity|].
  apply (C6_numeric_string DecimalPipe "en-US" "42.5" Decimal (Some "1.2-2") None false).
  reflexivity.
Defined.

(** C7: a digit info overrides field by field. For every pipe and style the
    digit info [".2"] sets only [minimumFractionDigits], to 2, and leaves the
    other two bounds at the defaults of the style; in general each bound is
    the field of the digit info when the field is written and the default of
    the style when it is not. *)
Theorem C7_fieldwise_override pipe locale num style cur sym :
  formatNumber pipe locale (Number num) style (Some ".2") cur sym
    = delegate (mkCall num locale style
                  (let '(minInt, _, maxFraction) := defaultBounds style in
                   mkOptions minInt (Some (number_of_Z 2)) maxFraction cur sym))
  /\ forall s i f m,
       DigitInfo s i f m ->
       let '(minInt, minFraction, maxFraction) := defaultBounds style in
       formatNumber pipe locale (Number num) style (Some s) cur sym
       = delegate (mkCall num locale style
                     (mkOptions
                        match i with Some t => Some (fieldNumber t) | None => minInt end
                        match f with Some t => Some (fieldNumber t) | None => minFraction end
                        match m with Some t => Some (fieldNumber t) | None => maxFraction end
                        cur sym)).
Proof.
  split.
  - rewrite formatNumber_digits. destruct style; reflexivity.
  - intros s i f m H. rewrite formatNumber_digits, (fields_complete _ _ _ _ H).
    destruct style; reflexivity.
Qed.

(** The currency pipe with the digit info ["12."]: only the minimum of
    integer digits is set. *)
Lemma C7_fieldwise_override_witness :
  DigitInfo "12." (Some "12") None None
  /\ formatNumber CurrencyPipe "en-US" (Number (number_of_Z 1)) Currency (Some "12.")
       (Some "EUR") true
     = delegate (mkCall (number_of_Z 1) "en-US" Currency
                   (mkOptions (Some (number_of_Z 12)) None None (Some "EUR") true)).
Proof.
  assert (H : DigitInfo "12." (Some "12") None None)
    by (apply (DigitInfo_integer (Some "12")); reflexivity).
  split; [exact H|].
  exact (proj2 (C7_fieldwise_override CurrencyPipe "en-US" (number_of_Z 1) Currency
                  (Some "EUR") true) "12." (Some "12") None None H).
Defined.

(** C8: the two defaults of the currency pipe apply one by one. Whatever
    else is given, a currency code left out is ["USD"] and a symbol flag left
    out is [false]; a code or a flag that is given is handed on as it is.
    The dispatcher receives them so, and every call the run then makes to
    the locale formatter carries them, for every value and digit info. *)
Theorem C8_currency_defaults {Env} (h : Collaborator Env) env locale value num
    digits (code : option string) (symbol : option bool) c b call :
  CurrencyPipe_transform locale value code symbol digits
    = formatNumber CurrencyPipe locale value Currency digits
        (Some match code with Some c' => c' | None => "USD" end)
        match symbol with Some b' => b' | None => false end
  /\ (In call (calls (run h (CurrencyPipe_transform locale value code symbol digits) env)) ->
      call_style call = Currency
      /\ currency (call_opts call)
         = Some match code with Some c' => c' | None => "USD" end
      /\ currencyAsSymbol (call_opts call)
         = match symbol with Some b' => b' | None => false end)
  /\ CurrencyPipe_transform locale value None None digits
     = formatNumber CurrencyPipe locale value Currency digits (Some "USD") false
  /\ CurrencyPipe_transform locale value (Some c) None digits
     = formatNumber CurrencyPipe locale value Currency digits (Some c) false
  /\ CurrencyPipe_transform locale value None (Some b) digits
     = formatNumber CurrencyPipe locale value Currency digits (Some "USD") b
  /\ CurrencyPipe_transform locale value (Some c) (Some b) digits
     = formatNumber CurrencyPipe locale value Currency digits (Some c) b
  /\ CurrencyPipe_transform locale (Number num) None None None
     = delegate (mkCall num locale Currency
                   (mkOptions None None None (Some "USD") false)).
Proof.
  repeat split; unfold CurrencyPipe_transform in H;
    apply formatNumber_calls in H; tauto.
Qed.

(** The currency pipe on the number 1 with the code ["EUR"], no symbol flag
    and the digit info ["1.2-2"]: one call, with ["EUR"] and [false]. *)
Lemma C8_currency_defaults_witness :
  calls (run countingFormatter
           (CurrencyPipe_transform "en-US" (Number (number_of_Z 1)) (Some "EUR") None
              (Some "1.2-2")) 0)
  = [mkCall (number_of_Z 1) "en-US" Currency
       (mkOptions (Some (number_of_Z 1)) (Some (number_of_Z 2)) (Some (number_of_Z 2))
          (Some "EUR") false)]
  /\ currencyAsSymbol
       (mkOptions (Some (number_of_Z 1)) (Some (number_of_Z 2)) (Some (number_of_Z 2))
          (Some "EUR") false)
     = false.
Proof.
  split; [reflexivity|].
  apply (proj1 (proj2 (C8_currency_defaults countingFormatter 0 "en-US"
                         (Number (number_of_Z 1)) (number_of_Z 1) (Some "1.2-2")
                         (Some "EUR") None "EUR" true
                         (mkCall (number_of_Z 1) "en-US" Currency
                            (mkOptions (Some (number_of_Z 1)) (Some (number_of_Z 2))
                               (Some (number_of_Z 2)) (Some "EUR") false))))).
  left. reflexivity.
Defined.

(** C9: the dispatcher keeps no state of its own. The one thing of the
    module that outlives a call is the object of the pattern, and its
    [lastIndex] is never read: whatever [lastIndex] the object has, a call
    computes the same, and so does a second call on the object as the first
    one left it. Against a locale formatter whose answer is a function of the
    call alone, two invocations on the same arguments therefore end with the
    same completion and make the same calls, whatever the states of the
    object and of the formatter at the start of each. *)
Theorem C9_deterministic {Env} (h : Collaborator Env)
    pipe locale value style digits cur sym li1 li2 env1 env2 :
  (forall call e1 e2, fst (h call e1) = fst (h call e2)) ->
  let first := formatNumber_on (NUMBER_FORMAT_REGEXP_object li1)
                 pipe locale value style digits cur sym in
  let other := formatNumber_on (NUMBER_FORMAT_REGEXP_object li2)
                 pipe locale value style digits cur sym in
  let second := formatNumber_on (snd first)
                  pipe locale value style digits cur sym in
  fst first = fst other
  /\ fst second = fst first
  /\ result (run h (fst first) env1) = result (run h (fst other) env2)
  /\ calls (run h (fst first) env1) = calls (run h (fst other) env2)
  /\ result (run h (fst second) env2) = result (run h (fst first) env1)
  /\ calls (run h (fst second) env2) = calls (run h (fst first) env1)
  /\ (exists li', snd first = NUMBER_FORMAT_REGEXP_object li'
                  /\ (li' = li1 \/ li' = 0%nat))
  /\ fst first = formatNumber pipe locale value style digits cur sym
  /\ result (run h (formatNumber pipe locale value style digits cur sym) env1)
     = result (run h (formatNumber pipe locale value style digits cur sym) env2)
  /\ calls (run h (formatNumber pipe locale value style digits cur sym) env1)
     = calls (run h (formatNumber pipe locale value style digits cur sym) env2).
Proof.
  intros Hpure. cbv zeta.
  destruct (formatNumber_on_object li1 pipe locale value style digits cur sym)
    as (E1 & li' & Eo & Hli).
  destruct (formatNumber_on_object li2 pipe locale value style digits cur sym)
    as (E2 & _).
  rewrite Eo.
  destruct (formatNumber_on_object li' pipe locale value style digits cur sym)
    as (E3 & _).
  rewrite E1, E2, E3.
  destruct (run_pure h (formatNumber pipe locale value style digits cur sym)
              Hpure env1 env2) as [Hr Hc].
  repeat split; try congruence. exists li'. now split.
Qed.

(** Two invocations of the decimal pipe's dispatcher against the counting
    formatter: the object of the pattern and the formatter are in different
    states at the start of each. *)
Lemma C9_deterministic_witness :
  result (run countingFormatter
            (fst (formatNumber_on (NUMBER_FORMAT_REGEXP_object 0)
                    DecimalPipe "en-US" (Str "3.14159") Decimal (Some "1.2-2")
                    None false)) 0)
  = result (run countingFormatter
              (fst (formatNumber_on (NUMBER_FORMAT_REGEXP_object 5)
                      DecimalPipe "en-US" (Str "3.14159") Decimal (Some "1.2-2")
                      None false)) 7).
Proof.
  apply (C9_deterministic countingFormatter DecimalPipe "en-US" (Str "3.14159")
           Decimal (Some "1.2-2") None false 0 5 0 7).
  reflexivity.
Defined.

(** C10: NaN is a number. For every pipe and style the dispatcher does not
    throw [InvalidPipeArgumentError] on it: without a digit info it hands NaN
    to the locale formatter, with one it either does the same or rejects the
    digit info. Whenever the dispatcher does throw
    [InvalidPipeArgumentError], the value after the conversion of numeric
    strings is not a number, and the error carries the pipe and that value. *)
Theorem C10_NaN_is_a_number pipe locale style cur sym :
  formatNumber pipe locale (Number NaN) style None cur sym
    = delegate (mkCall NaN locale style
                  (let '(minInt, minFraction, maxFraction) := defaultBounds style in
                   mkOptions minInt minFraction maxFraction cur sym))
  /\ (forall s,
        match formatNumber pipe locale (Number NaN) style (Some s) cur sym with
        | Format call _ => call_num call = NaN
        | Throw e => e = InvalidDigitInfo s
        | Ret _ => False
        end)
  /\ (forall value digits,
        match formatNumber pipe locale value style digits cur sym with
        | Throw (InvalidPipeArgumentError type v) =>
            isNumber (coerced value) = false /\ type = pipe /\ v = coerced value
        | _ => True
        end).
Proof.
  split; [destruct style; reflexivity|]. split.
  - intros s. rewrite formatNumber_digits. now destruct (fields s).
  - intros value digits.
    destruct value as [| |b|n|s|o]; try (now simpl).
    + destruct digits as [s|].
      * rewrite formatNumber_digits. now destruct (fields s).
      * now rewrite formatNumber_no_digits.
    + destruct (NumberWrapper.isNumeric s) eqn:E.
      * rewrite (formatNumber_numeric_string pipe locale s style digits cur sym E).
        destruct digits as [d|].
        -- rewrite formatNumber_digits. now destruct (fields d).
        -- now rewrite formatNumber_no_digits.
      * unfold formatNumber, coerced. cbn [isBlank]. rewrite E. now simpl.
Qed.

(** ** Examples *)

(** The arrays [match] returns on a full digit info and on the dot alone. *)
Example match_full_digit_info :
  String_match "3.2-4" _NUMBER_FORMAT_REGEXP
  = Some [Some "3.2-4"; Some "3"; Some "2-4"; Some "2"; Some "-4"; Some "4"]
  /\ String_match "." _NUMBER_FORMAT_REGEXP
     = Some [Some "."; None; None; None; None; None]
  /\ String_match "12.3-" _NUMBER_FORMAT_REGEXP = None.
Proof. repeat split. Qed.

(** The decimal pipe on ["3.14159"] with the digit info ["1.2-2"] and the
    locale ["en-US"] asks for one integer digit and exactly two fraction
    digits. *)
Example decimal_pipe_end_to_end :
  DecimalPipe_transform "en-US" (Str "3.14159") (Some "1.2-2")
  = delegate (mkCall (ToNumber "3.14159") "en-US" Decimal
                (mkOptions (Some (number_of_Z 1)) (Some (number_of_Z 2))
                           (Some (number_of_Z 2)) None false))
  /\ run countingFormatter
       (DecimalPipe_transform "en-US" (Str "3.14159") (Some "1.2-2")) 0
     = (Normal (Some "en-US"), 1%nat,
        [mkCall (ToNumber "3.14159") "en-US" Decimal
           (mkOptions (Some (number_of_Z 1)) (Some (number_of_Z 2))
                      (Some (number_of_Z 2)) None false)]).
Proof. split; reflexivity. Qed.

(** A field without a prefix is read in base 10. *)
Example field_decimal :
  fieldNumber "12" = number_of_Z 12 /\ fieldNumber "3" = number_of_Z 3.
Proof. split; reflexivity. Qed.

(** Numeric strings and their numbers. *)
Example numeric_strings :
  map NumberWrapper.isNumeric ["42.5"; "-3"; "+.5e-3"; "1e5"; "5."]
  = [true; true; true; true; true]
  /\ map NumberWrapper.isNumeric [""; "abc"; "."; "1e"; "12px"; " 1"; "1.2.3"]
     = [false; false; false; false; false; false; false]
  /\ ToNumber "-3" = S754_finite true 6755399441055744 (-51)
  /\ ToNumber "0.1" = S754_finite false 7205759403792794 (-56).
Proof. repeat split. Qed.

(** Against a locale formatter whose answer depends on its state two runs on
    the same arguments can differ: the dispatcher adds no state of its own,
    and removes none. *)
Example stateful_formatter_differs :
  result (run alternatingFormatter
            (DecimalPipe_transform "en-US" (Number (number_of_Z 1)) None) 0)
  = Normal (Some "even")
  /\ result (run alternatingFormatter
               (DecimalPipe_transform "en-US" (Number (number_of_Z 1)) None) 1)
     = Normal (Some "odd").
Proof. split; reflexivity. Qed.

(** ** Further properties of the pattern and of the dispatcher *)

(** [formatNumber] as a table: the blank check comes first, the check of the
    value second, the digit info third. *)
Lemma formatNumber_table pipe locale value style digits cur sym :
  formatNumber pipe locale value style digits cur sym =
  if isBlank value then Ret None else
  match coerced value with
  | Number num =>
      match digits with
      | None =>
          delegate (mkCall num locale style
                      (mergedOptions style (None, None, None) cur sym))
      | Some s =>
          match fields s with
          | Some ifm => delegate (mkCall num locale style (mergedOptions style ifm cur sym))
          | None => Throw (InvalidDigitInfo s)
          end
      end
  | v => Throw (InvalidPipeArgumentError pipe v)
  end.
Proof.
  assert (Hnum : forall num,
    formatNumber pipe locale (Number num) style digits cur sym =
    match digits with
    | None =>
        delegate (mkCall num locale style
                    (mergedOptions style (None, None, None) cur sym))
    | Some s =>
        match fields s with
        | Some ifm => delegate (mkCall num locale style (mergedOptions style ifm cur sym))
        | None => Throw (InvalidDigitInfo s)
        end
    end).
  { intros num. destruct digits as [d|];
      [apply formatNumber_digits | apply formatNumber_no_digits]. }
  destruct value as [| |b|n|s|o]; try reflexivity.
  - apply Hnum.
  - cbn [isBlank coerced]. destruct (NumberWrapper.isNumeric s) eqn:E.
    + rewrite (formatNumber_numeric_string _ _ _ _ _ _ _ E). apply Hnum.
    + unfold formatNumber. cbn [isBlank]. now rewrite E.
Qed.

Lemma fields_None s : fields s = None <-> ~ exists i f m, DigitInfo s i f m.
Proof.
  split.
  - intros H (i & f & m & Hd). rewrite (fields_complete _ _ _ _ Hd) in H. discriminate.
  - intros H. destruct (fields s) as [[[i f] m]|] eqn:E; [|reflexivity].
    exfalso. apply H. exists i, f, m. now apply fields_sound.
Qed.

Lemma occurrences_app c a b :
  occurrences c (a ++ b) = (occurrences c a + occurrences c b)%nat.
Proof. induction a as [|d a IH]; simpl; [reflexivity|]. rewrite IH. lia. Qed.

Lemma digits_shape l :
  forallb isDigit l = true ->
  forallb allowedChar l = true /\ occurrences "." l = 0%nat /\ occurrences "-" l = 0%nat.
Proof.
  induction l as [|d l IH]; simpl; [auto|].
  intros H. apply andb_true_iff in H as [Hd Hl].
  destruct (IH Hl) as (Ha & Hdot & Hdash).
  unfold allowedChar at 1. rewrite Hd, Ha, Hdot, Hdash.
  now rewrite (digit_not_dot _ Hd), (digit_not_dash _ Hd).
Qed.

Lemma optDigits_shape i :
  optDigits i = true ->
  forallb allowedChar (chars (text i)) = true
  /\ occurrences "." (chars (text i)) = 0%nat
  /\ occurrences "-" (chars (text i)) = 0%nat.
Proof. intros H. apply digits_shape. now apply optDigits_chars. Qed.

(** A text of the grammar is written with digits, one dot and at most one
    dash. *)
Lemma DigitInfo_shape s i f m :
  DigitInfo s i f m ->
  forallb allowedChar (chars s) = true
  /\ occurrences "." (chars s) = 1%nat
  /\ (occurrences "-" (chars s) <= 1)%nat.
Proof.
  intros [i' Hi | i' f' Hi Hf | i' f' m' Hi Hf Hm];
    destruct (optDigits_shape _ Hi) as (Ai & Di & Mi);
    try destruct (optDigits_shape (Some f') Hf) as (Af & Df & Mf);
    try destruct (optDigits_shape (Some m') Hm) as (Am & Dm & Mm);
    cbn [text] in *;
    rewrite !chars_app, ?forallb_app, ?occurrences_app;
    change (chars ".") with ["."%char]; change (chars "-") with ["-"%char];
    cbn [forallb occurrences];
    rewrite ?Ai, ?Af, ?Am, ?Di, ?Df, ?Dm, ?Mi, ?Mf, ?Mm;
    repeat split; simpl; lia.
Qed.

(** X1: the pattern matches exactly the texts of the grammar
    [[minInt].[minFraction[-maxFraction]]]; the array of a match holds the
    whole text, the integer field, the fraction part, the minimum, the dash
    with the maximum, and the maximum, with [undefined] for what is not
    written. The match is [null] exactly on the other texts. *)
Theorem pattern_matches_grammar s parts :
  (String_match s _NUMBER_FORMAT_REGEXP = Some parts
   <-> exists i f m, DigitInfo s i f m /\ parts = matchArray s (i, f, m))
  /\ (String_match s _NUMBER_FORMAT_REGEXP = None
      <-> ~ exists i f m, DigitInfo s i f m).
Proof.
  rewrite match_fields. split.
  - split.
    + intros H. destruct (fields s) as [[[i f] m]|] eqn:E; [|discriminate H].
      injection H as <-. exists i, f, m. split; [now apply fields_sound | reflexivity].
    + intros (i & f & m & Hd & ->). now rewrite (fields_complete _ _ _ _ Hd).
  - rewrite <- fields_None. destruct (fields s); simpl; split; congruence.
Qed.

(** X2: the groups of a match tile the text. The array has six entries; entry
    0 is the whole text, which is group 1, the dot and group 2; group 2 is
    group 3 followed by group 4; group 4 is the dash followed by group 5; a
    group that did not take part counts as the empty text. *)
Theorem groups_tile_the_text s parts :
  String_match s _NUMBER_FORMAT_REGEXP = Some parts ->
  List.length parts = 6%nat
  /\ item parts 0 = Some s
  /\ s = (text (item parts 1) ++ "." ++ text (item parts 2))%string
  /\ text (item parts 2) = (text (item parts 3) ++ text (item parts 4))%string
  /\ item parts 4
     = match item parts 5 with
       | Some m => Some ("-" ++ m)%string
       | None => None
       end
  /\ (item parts 3 = None -> item parts 5 = None).
Proof.
  rewrite match_fields. intros H.
  destruct (fields s) as [[[i f] m]|] eqn:E; [|discriminate H].
  injection H as <-. apply fields_sound in E.
  destruct E as [i' Hi | i' f' Hi Hf | i' f' m' Hi Hf Hm];
    cbn [matchArray item nth text List.length];
    rewrite ?append_empty; repeat split; discriminate.
Qed.

(** The array of ["3.2-4"]. *)
Lemma groups_tile_the_text_witness :
  String_match "3.2-4" _NUMBER_FORMAT_REGEXP
  = Some [Some "3.2-4"; Some "3"; Some "2-4"; Some "2"; Some "-4"; Some "4"]
  /\ "3.2-4" = (text (Some "3") ++ "." ++ text (Some "2-4"))%string.
Proof.
  split; [reflexivity|].
  apply (groups_tile_the_text "3.2-4"
           [Some "3.2-4"; Some "3"; Some "2-4"; Some "2"; Some "-4"; Some "4"]).
  reflexivity.
Defined.

(** X3: a digit info is taken as it is written. On a number, a text that
    holds a character other than a digit, the dot and the dash (a blank, a
    sign, a comma), that has no dot or more than one, or that has more than
    one dash is rejected with the digit-info error. *)
Theorem malformed_digit_info_rejected pipe locale num style cur sym s :
  forallb allowedChar (chars s) = false
  \/ occurrences "." (chars s) <> 1%nat
  \/ (1 < occurrences "-" (chars s))%nat ->
  formatNumber pipe locale (Number num) style (Some s) cur sym
  = Throw (Error (s ++ " is not a valid digit info for number pipes")%string).
Proof.
  intros H. rewrite formatNumber_digits.
  destruct (fields s) as [[[i f] m]|] eqn:E; [|reflexivity].
  exfalso. apply fields_sound, DigitInfo_shape in E as (Ha & Hd & Hm).
  destruct H as [H | [H | H]]; [congruence | contradiction | lia].
Qed.

(** A digit info with a blank in front. *)
Lemma malformed_digit_info_rejected_witness :
  forallb allowedChar (chars " 1.2") = false
  /\ DecimalPipe_transform "en-US" (Number (number_of_Z 1)) (Some " 1.2")
     = Throw (Error " 1.2 is not a valid digit info for number pipes").
Proof.
  split; [reflexivity|].
  apply (malformed_digit_info_rejected DecimalPipe "en-US" (number_of_Z 1) Decimal
           None false " 1.2").
  left. reflexivity.
Defined.

(** X4: the built-in [Error] is thrown exactly when the value, after the
    conversion of numeric strings, is a number and a digit info is given that
    is outside the grammar; its message then quotes the digit info. So a
    value that is not a number is reported before the digit info is looked
    at, and a blank value hides a malformed digit info. *)
Theorem digit_info_error_iff pipe locale value style digits cur sym msg :
  formatNumber pipe locale value style digits cur sym = Throw (Error msg)
  <-> isBlank value = false
      /\ isNumber (coerced value) = true
      /\ exists s, digits = Some s
                   /\ (~ exists i f m, DigitInfo s i f m)
                   /\ msg = (s ++ " is not a valid digit info for number pipes")%string.
Proof.
  rewrite formatNumber_table. split.
  - intros H. destruct (isBlank value); [discriminate H|].
    destruct (coerced value) as [| |b|n|t|o]; try discriminate H.
    destruct digits as [s|]; [|discriminate H].
    destruct (fields s) eqn:E; [discriminate H|].
    injection H as <-. repeat split. exists s. repeat split.
    now apply fields_None.
  - intros (Hb & Hn & s & -> & Hs & ->). rewrite Hb.
    destruct (coerced value) as [| |b|n|t|o]; try discriminate Hn.
    apply fields_None in Hs. now rewrite Hs.
Qed.

(** X5: a run of [formatNumber] calls the locale formatter at most once.
    Without a call the formatter's state is untouched and the run ends with
    [null] or with an error of the dispatcher; with a call the run ends with
    the formatter's string as it is, or with the formatter's error as it is,
    and in the state the formatter left. *)
Theorem at_most_one_call {Env} (h : Collaborator Env) env
    pipe locale value style digits cur sym :
  let o := run h (formatNumber pipe locale value style digits cur sym) env in
  (calls o = [] /\ snd (fst o) = env
   /\ (result o = Normal None
       \/ result o = Abrupt (InvalidPipeArgumentError pipe (coerced value))
       \/ exists s, digits = Some s /\ result o = Abrupt (InvalidDigitInfo s)))
  \/ (exists call,
        calls o = [call]
        /\ result o = match fst (h call env) with
                      | Normal s => Normal (Some s)
                      | Abrupt e => Abrupt e
                      end
        /\ snd (fst o) = snd (h call env)).
Proof.
  cbv zeta. rewrite formatNumber_table.
  assert (Hd : forall call,
    exists call',
      calls (run h (delegate call) env) = [call']
      /\ result (run h (delegate call) env)
         = match fst (h call' env) with
           | Normal s => Normal (Some s)
           | Abrupt e => Abrupt e
           end
      /\ snd (fst (run h (delegate call) env)) = snd (h call' env)).
  { intros call. exists call. rewrite run_delegate.
    destruct (h call env) as [[s|e] env']; repeat split. }
  destruct (isBlank value); [left; repeat split; now left|].
  destruct (coerced value) as [| |b|n|t|o];
    try (left; repeat split; right; left; reflexivity).
  destruct digits as [s|]; [|right; apply Hd].
  destruct (fields s); [right; apply Hd|].
  left. repeat split. right. right. exists s. now split.
Qed.

(** X6: the decimal and the percent pipe differ in the style alone. On the
    same value and digit info both return [null], or both throw (the same
    digit-info error, or the invalid-argument error with the same value, each
    naming its own class), or both call the locale formatter with the same
    number, locale and options, one with the decimal and one with the percent
    style. *)
Theorem decimal_and_percent_agree locale value digits :
  match DecimalPipe_transform locale value digits,
        PercentPipe_transform locale value digits with
  | Ret r1, Ret r2 => r1 = r2
  | Throw (Error m1), Throw (Error m2) => m1 = m2
  | Throw (InvalidPipeArgumentError t1 v1), Throw (InvalidPipeArgumentError t2 v2) =>
      t1 = DecimalPipe /\ t2 = PercentPipe /\ v1 = v2
  | Format c1 _, Format c2 _ =>
      call_num c1 = call_num c2 /\ call_locale c1 = call_locale c2
      /\ call_opts c1 = call_opts c2
      /\ call_style c1 = Decimal /\ call_style c2 = Percent
  | _, _ => False
  end.
Proof.
  unfold DecimalPipe_transform, PercentPipe_transform.
  rewrite !formatNumber_table.
  destruct (isBlank value); [reflexivity|].
  destruct (coerced value) as [| |b|n|t|o]; try (repeat split).
  destruct digits as [s|]; [|repeat split].
  destruct (fields s) as [[[i f] m]|]; repeat split.
Qed.

(** X7: the dispatcher hands the value on as it is. Every call a run makes
    carries the value after the conversion of numeric strings, the locale and
    the style it was given: nothing is scaled or rounded for the percent or
    the currency style. *)
Theorem value_passed_unchanged {Env} (h : Collaborator Env) env
    pipe locale value style digits cur sym call :
  In call (calls (run h (formatNumber pipe locale value style digits cur sym) env)) ->
  coerced value = Number (call_num call)
  /\ call_locale call = locale
  /\ call_style call = style.
Proof.
  destruct (formatNumber_shape pipe locale value style digits cur sym)
    as [-> | [[e ->] | (num & ifm & Hc & _ & ->)]]; try (intros []).
  rewrite calls_delegate. intros [<- | []]. now repeat split.
Qed.

(** The percent pipe on the numeric string ["0.5"]: the call carries 0.5. *)
Lemma value_passed_unchanged_witness :
  calls (run countingFormatter (PercentPipe_transform "en-US" (Str "0.5") None) 0)
  = [mkCall (ToNumber "0.5") "en-US" Percent
       (mkOptions (Some (number_of_Z 1)) (Some (number_of_Z 0))
                  (Some (number_of_Z 3)) None false)]
  /\ coerced (Str "0.5") = Number (S754_finite false 4503599627370496 (-53)).
Proof.
  split; [reflexivity|].
  apply (value_passed_unchanged countingFormatter 0 PercentPipe "en-US" (Str "0.5")
           Percent None None false
           (mkCall (ToNumber "0.5") "en-US" Percent
              (mkOptions (Some (number_of_Z 1)) (Some (number_of_Z 0))
                 (Some (number_of_Z 3)) None false))).
  left. reflexivity.
Defined.

(** What the flag of the literal is worth: on an object with the same
    pattern and the [global] flag, [exec] reads [lastIndex], so that two
    calls on the same text differ. *)
Example global_object_has_state :
  fst (exec_object (mkObject _NUMBER_FORMAT_REGEXP true 0) "1.2")
  = Some [Some "1.2"; Some "1"; Some "2"; Some "2"; None; None]
  /\ lastIndex (snd (exec_object (mkObject _NUMBER_FORMAT_REGEXP true 0) "1.2")) = 3%nat
  /\ fst (exec_object (mkObject _NUMBER_FORMAT_REGEXP true 3) "1.2") = None
  /\ fst (exec_object (NUMBER_FORMAT_REGEXP_object 3) "1.2")
     = Some [Some "1.2"; Some "1"; Some "2"; Some "2"; None; None].
Proof. repeat split. Qed.

(** [match] on global objects: all the matches, empty ones included. *)
Example match_on_global_objects :
  fst (String_match_object "12 345 6" (mkObject (mkRegExp (Plus Digit) 0) true 4))
  = Some [Some "12"; Some "345"; Some "6"]
  /\ fst (String_match_object "1a2" (mkObject (mkRegExp (Quant Digit 0 None) 0) true 0))
     = Some [Some "1"; Some ""; Some "2"; Some ""]
  /\ fst (String_match_object "abc" (mkObject (mkRegExp (Plus Digit) 0) true 0)) = None.
Proof. repeat split. Qed.
